(** * Kodak Smart Home camera entity: the refresh logic of [camera.py]

    A shallow embedding of [custom_components/kodak_smart_thome/camera.py]
    (class [KodakSmartHomeCam]) and the properties its specification states
    about construction, the poll operation [update], the still-image fetch
    and the MJPEG stream proxy. *)

From Stdlib Require Import ZArith List String Bool Lia.
Import ListNotations.

Local Open Scope string_scope.
Local Open Scope list_scope.
Local Open Scope Z_scope.

(** ** Data model *)

(** A data item of a motion event is a dict of the vendor payload.  The code
    tests the presence of the key ["file_type"] before it reads it, and reads
    ["file"] without a test: both keys are optional here, and the unguarded
    read is a [KeyError] when the key is missing. *)
Record data_item : Type := mk_data_item {
  file_type : option Z;
  file : option string
}.

(** A motion event: the keys ["id"] and ["data"] the code reads. *)
Record motion_event : Type := mk_motion_event {
  id : Z;
  data : list data_item
}.

(** The device record ([camera] in [setup_platform] and [__init__]). *)
Record device : Type := mk_device {
  device_id : string;
  name : string;
  firmware_version : string;
  zone_id : string;
  is_online : bool
}.

(** The platform configuration: [device_info.get(CONF_FFMPEG_ARGUMENTS)]. *)
Record config : Type := mk_config {
  ffmpeg_arguments : option string
}.

(** Timestamps ([datetime]) are microseconds since the epoch, durations
    ([timedelta]) are microseconds. *)
Definition datetime : Type := Z.
Definition timedelta : Type := Z.

Definition minutes (n : Z) : timedelta := n * 60 * 1000000.

Definition FORCE_REFRESH_INTERVAL : timedelta := minutes 45.

(** The two constants stay folded in proofs; their value is
    [FORCE_REFRESH_INTERVAL_microseconds] below. *)
Opaque minutes FORCE_REFRESH_INTERVAL.

(** ** Exceptions and outcomes *)

Inductive exn : Type :=
| KeyError (key : string)
| IndexError
| HelperError (msg : string)
| CancelledError.

Inductive outcome (A : Type) : Type :=
| Returned (v : A)
| Raised (e : exn).
Arguments Returned {A} v.
Arguments Raised {A} e.

(** ** The collaborators *)

(** Values that only pass through the entity. *)
Definition image_bytes : Type := list nat.
Inductive stream_reader : Type := StreamReader (handle : nat).
Inductive web_request : Type := WebRequest (handle : nat).
Inductive web_response : Type := WebResponse (handle : nat).

(** What the entity does to its collaborators, in the order it does it.
    [GetEventVideoUrl] records a call of the entity's own static method
    [_get_event_video_url] by [update]; [ImageFrameNew] and [CameraMjpegNew] record the
    construction of a helper wrapper object (no helper process is started by
    it); the others are the operations of the transcoding helper and of the
    proxy-copy utility. *)
Inductive action : Type :=
| GetEventVideoUrl (events_data : list data_item)
| ImageFrameNew (binary : string)
| GetImage (url : string) (extra_cmd : option string)
| CameraMjpegNew (binary : string)
| OpenCamera (url : string) (extra_cmd : option string)
| GetReader
| ProxyStream (request : web_request) (reader : stream_reader)
              (content_type : string)
| Close.

(** The host ([hass]) as one call of the entity sees it: the clock
    ([dt_util.utcnow]), the data source ([hass.data[DATA_KODAKSMARTHOME]],
    whose [get_motion_events] is not part of this file), the ffmpeg manager
    ([hass.data[DATA_FFMPEG]]) and the way each helper operation ends when it
    is awaited (it returns, or it raises). *)
Record hass_env : Type := mk_hass {
  utcnow : datetime;
  get_motion_events : string -> list motion_event;
  ffmpeg_binary : string;
  ffmpeg_stream_content_type : string;
  get_image_ends : string -> option string -> outcome image_bytes;
  open_camera_ends : string -> option string -> outcome unit;
  get_reader_ends : outcome stream_reader;
  proxy_stream_ends : web_request -> stream_reader -> string ->
                      outcome web_response;
  close_ends : outcome unit
}.

(** ** The entity *)

Record KodakSmartHomeCam : Type := mk_cam {
  _camera : device;
  _motion_events : list motion_event;
  _name : string;
  _ffmpeg_arguments : option string;
  _last_video_id : option Z;
  _video_url : option string;
  _utcnow : datetime;
  _expires_at : datetime
}.

(** The adapter state of the specification: the three attributes it names. *)
Definition adapter_state (c : KodakSmartHomeCam)
  : option Z * option string * datetime :=
  (_last_video_id c, _video_url c, _expires_at c).

Definition set_utcnow (t : datetime) (c : KodakSmartHomeCam) :=
  mk_cam (_camera c) (_motion_events c) (_name c) (_ffmpeg_arguments c)
         (_last_video_id c) (_video_url c) t (_expires_at c).

Definition set_last_video_id (i : option Z) (c : KodakSmartHomeCam) :=
  mk_cam (_camera c) (_motion_events c) (_name c) (_ffmpeg_arguments c)
         i (_video_url c) (_utcnow c) (_expires_at c).

Definition set_video_url (u : option string) (c : KodakSmartHomeCam) :=
  mk_cam (_camera c) (_motion_events c) (_name c) (_ffmpeg_arguments c)
         (_last_video_id c) u (_utcnow c) (_expires_at c).

Definition set_expires_at (t : datetime) (c : KodakSmartHomeCam) :=
  mk_cam (_camera c) (_motion_events c) (_name c) (_ffmpeg_arguments c)
         (_last_video_id c) (_video_url c) (_utcnow c) t.

(** ** A monad for the methods: host read, entity and log threaded,
    exceptions *)

Record world : Type := mk_world {
  self : KodakSmartHomeCam;
  log : list action
}.

Definition M (A : Type) : Type := hass_env -> world -> outcome A * world.

Definition ret {A} (v : A) : M A := fun _ w => (Returned v, w).

Definition raise {A} (e : exn) : M A := fun _ w => (Raised e, w).

Definition bind {A B} (m : M A) (k : A -> M B) : M B :=
  fun h w =>
    match m h w with
    | (Returned v, w') => k v h w'
    | (Raised e, w') => (Raised e, w')
    end.

(** [try: body finally: fin]: [fin] runs however [body] ends; an exception of
    [fin] replaces the result of [body]. *)
Definition try_finally {A} (body : M A) (fin : M unit) : M A :=
  fun h w =>
    let (r, w') := body h w in
    match fin h w' with
    | (Returned _, w'') => (r, w'')
    | (Raised e, w'') => (Raised e, w'')
    end.

Declare Scope cam_scope.
Delimit Scope cam_scope with cam.
Notation "x <- m ;; k" := (bind m (fun x => k))
  (at level 61, m at next level, right associativity) : cam_scope.
Notation "m ;; k" := (bind m (fun _ => k))
  (at level 61, right associativity) : cam_scope.
Local Open Scope cam_scope.

Definition hass : M hass_env := fun h w => (Returned h, w).
Definition get_self : M KodakSmartHomeCam := fun _ w => (Returned (self w), w).
Definition modify_self (f : KodakSmartHomeCam -> KodakSmartHomeCam) : M unit :=
  fun _ w => (Returned tt, mk_world (f (self w)) (log w)).
Definition record (a : action) : M unit :=
  fun _ w => (Returned tt, mk_world (self w) (log w ++ [a])).
Definition lift {A} (o : outcome A) : M A := fun _ w => (o, w).

(** An awaited helper operation: it is recorded, then it ends as the host
    says. *)
Definition await {A} (a : action) (ends : hass_env -> outcome A) : M A :=
  record a ;; h <- hass ;; lift (ends h).

(** ** [_get_event_video_url] *)

(** ["file_type" in event_data and event_data["file_type"] == 2] *)
Definition is_video (event_data : data_item) : bool :=
  match file_type event_data with
  | Some t => t =? 2
  | None => false
  end.

Fixpoint _get_event_video_url (events_data : list data_item)
  : outcome (option string) :=
  match events_data with
  | [] => Returned None
  | event_data :: rest =>
      if is_video event_data
      then match file event_data with
           | Some video_url => Returned (Some video_url)
           | None => Raised (KeyError "file")
           end
      else _get_event_video_url rest
  end.

(** Python truthiness of the value [_get_event_video_url] returns: [None] and
    the empty string are false. *)
Definition truthy (video_url : option string) : bool :=
  match video_url with
  | Some "" => false
  | Some _ => true
  | None => false
  end.

(** [events[-1]]: the last element, [IndexError] on the empty list. *)
Definition last_of (events : list motion_event) : option motion_event :=
  match rev events with
  | [] => None
  | e :: _ => Some e
  end.

Definition getitem_last (events : list motion_event) : outcome motion_event :=
  match last_of events with
  | Some e => Returned e
  | None => Raised IndexError
  end.

(** [len(events) > 0] *)
Definition nonempty (events : list motion_event) : bool :=
  (0 <? Z.of_nat (List.length events)).

(** [last_video_id != last_event_id], the left side possibly [None]. *)
Definition id_differs (last_video_id : option Z) (last_event_id : Z) : bool :=
  match last_video_id with
  | Some i => negb (i =? last_event_id)
  | None => true
  end.

Definition obind {A B} (o : outcome A) (k : A -> outcome B) : outcome B :=
  match o with
  | Returned v => k v
  | Raised e => Raised e
  end.

Notation "'let!' x ':=' o 'in' k" := (obind o (fun x => k))
  (at level 10, x name, o at level 100, k at level 200) : cam_scope.

(** ** [__init__] *)

Definition __init__ (h : hass_env) (camera : device) (device_info : config)
  : outcome KodakSmartHomeCam :=
  let motion_events := get_motion_events h (device_id camera) in
  let! last_video_id :=
    (if nonempty motion_events
     then let! e := getitem_last motion_events in Returned (Some (id e))
     else Returned None) in
  let! video_url :=
    (match last_video_id with
     | Some _ =>
         let! e := getitem_last motion_events in _get_event_video_url (data e)
     | None => Returned None
     end) in
  let now := utcnow h in
  Returned (mk_cam camera motion_events (name camera)
                   (ffmpeg_arguments device_info)
                   last_video_id video_url now (FORCE_REFRESH_INTERVAL + now)).

(** ** [update] *)

(** [self._kodak_data.get_motion_events(device_id=self._camera["device_id"])] *)
Definition fetch_motion_events : M (list motion_event) :=
  h <- hass ;;
  c <- get_self ;;
  ret (get_motion_events h (device_id (_camera c))).

(** The refresh trigger: the condition of the [if] that guards the call of
    [_get_event_video_url]. *)
Definition refresh_trigger (c : KodakSmartHomeCam) (last_event_id : Z) : bool :=
  id_differs (_last_video_id c) last_event_id
  || (_expires_at c <=? _utcnow c).

Definition update : M unit :=
  h <- hass ;;
  modify_self (set_utcnow (utcnow h)) ;;
  events <- fetch_motion_events ;;
  if nonempty events
  then
    events1 <- fetch_motion_events ;;
    e1 <- lift (getitem_last events1) ;;
    let last_events_data := data e1 in
    events2 <- fetch_motion_events ;;
    e2 <- lift (getitem_last events2) ;;
    let last_event_id := id e2 in
    c <- get_self ;;
    if refresh_trigger c last_event_id
    then
      record (GetEventVideoUrl last_events_data) ;;
      video_url <- lift (_get_event_video_url last_events_data) ;;
      if truthy video_url
      then
        modify_self (set_last_video_id (Some last_event_id)) ;;
        modify_self (set_video_url video_url) ;;
        c' <- get_self ;;
        modify_self (set_expires_at (FORCE_REFRESH_INTERVAL + _utcnow c'))
      else ret tt
    else ret tt
  else ret tt.

(** ** [async_camera_image] and [handle_async_mjpeg_stream] *)

(** The still image: [None] is the bare [return].  [asyncio.shield] changes
    who is cancelled, not what the call does or returns, and has no
    counterpart here. *)
Definition async_camera_image : M (option image_bytes) :=
  h <- hass ;;
  record (ImageFrameNew (ffmpeg_binary h)) ;;
  c <- get_self ;;
  match _video_url c with
  | None => ret None
  | Some video_url =>
      image <- await (GetImage video_url (_ffmpeg_arguments c))
                     (fun h => get_image_ends h video_url
                                              (_ffmpeg_arguments c)) ;;
      ret (Some image)
  end.

Definition handle_async_mjpeg_stream (request : web_request)
  : M (option web_response) :=
  c <- get_self ;;
  match _video_url c with
  | None => ret None
  | Some video_url =>
      h <- hass ;;
      record (CameraMjpegNew (ffmpeg_binary h)) ;;
      await (OpenCamera video_url (_ffmpeg_arguments c))
            (fun h => open_camera_ends h video_url (_ffmpeg_arguments c)) ;;
      try_finally
        (reader <- await GetReader get_reader_ends ;;
         let content_type := ffmpeg_stream_content_type h in
         response <- await (ProxyStream request reader content_type)
                           (fun h => proxy_stream_ends h request reader
                                                       content_type) ;;
         ret (Some response))
        (await Close close_ends)
  end.

(** The host polls the entity again and again; an exception of one poll goes
    to the host's error path and the entity lives on. *)
Fixpoint polls (hs : list hass_env) (w : world) : world :=
  match hs with
  | [] => w
  | h :: hs' => polls hs' (snd (update h w))
  end.

(** ** Sample data *)

Definition front_door : device :=
  mk_device "cam-1" "Front door" "1.0.7" "Europe/London" true.

Definition no_config : config := mk_config None.

Definition video_item (url : string) : data_item :=
  mk_data_item (Some 2) (Some url).
Definition snapshot_item (url : string) : data_item :=
  mk_data_item (Some 1) (Some url).
Definition untagged_item : data_item := mk_data_item None None.

Definition event_A : motion_event :=
  mk_motion_event 101 [snapshot_item "https://cdn/a.jpg";
                       video_item "https://cdn/a.mp4";
                       video_item "https://cdn/a-2.mp4"].
Definition event_B : motion_event :=
  mk_motion_event 102 [untagged_item; video_item "https://cdn/b.mp4"].
Definition event_C : motion_event :=
  mk_motion_event 103 [snapshot_item "https://cdn/c.jpg"; untagged_item].
Definition event_D : motion_event :=
  mk_motion_event 104 [snapshot_item "https://cdn/d.jpg"; video_item ""].
Definition event_E : motion_event :=
  mk_motion_event 101 [video_item ""; video_item "https://cdn/e.mp4"].

(** A host at time [now] whose data source holds [events] for every device
    and whose helper operations all return. *)
Definition host (now : datetime) (events : list motion_event) : hass_env :=
  mk_hass now (fun _ => events) "ffmpeg" "multipart/x-mixed-replace"
          (fun _ _ => Returned [255%nat; 216%nat])
          (fun _ _ => Returned tt)
          (Returned (StreamReader 7))
          (fun _ _ _ => Returned (WebResponse 200))
          (Returned tt).

(** The same host with a helper whose reader cannot be obtained. *)
Definition host_reader_fails (now : datetime) (events : list motion_event)
  : hass_env :=
  mk_hass now (fun _ => events) "ffmpeg" "multipart/x-mixed-replace"
          (fun _ _ => Returned [255%nat; 216%nat])
          (fun _ _ => Returned tt)
          (Raised (HelperError "no reader"))
          (fun _ _ _ => Returned (WebResponse 200))
          (Returned tt).

Definition cam_A : KodakSmartHomeCam :=
  mk_cam front_door [event_A] "Front door" None
         (Some 101) (Some "https://cdn/a.mp4") 0 (minutes 45).

Definition cam_blank : KodakSmartHomeCam :=
  mk_cam front_door [] "Front door" None None None 0 (minutes 45).

Definition fresh (c : KodakSmartHomeCam) : world := mk_world c [].

(** The state [update] leaves when the guard [if video_url:] is passed. *)
Definition adopted (c : KodakSmartHomeCam) (last_event_id : Z)
  (video_url : option string) : KodakSmartHomeCam :=
  set_expires_at (FORCE_REFRESH_INTERVAL + _utcnow c)
    (set_video_url video_url (set_last_video_id (Some last_event_id) c)).

(** The events a poll fetches for the entity of [w]. *)
Definition fetched (h : hass_env) (w : world) : list motion_event :=
  get_motion_events h (device_id (_camera (self w))).

(** ** The vocabulary of the properties *)

(** The refresh trigger in the words of the specification: the newest
    event's id differs from [last_video_id], or the time of the refresh is at
    or past [expires_at]. *)
Definition trigger_condition (h : hass_env) (w : world) (e : motion_event)
  : Prop :=
  _last_video_id (self w) <> Some (id e) \/ _expires_at (self w) <= utcnow h.

(** The refresh called [_get_event_video_url] on the data of [e], once. *)
Definition fires_adoption (h : hass_env) (w : world) (e : motion_event)
  : Prop :=
  log (snd (update h w)) = log w ++ [GetEventVideoUrl (data e)].

(** After the refresh [expires_at] is the time of the refresh plus the
    freshness window. *)
Definition expiry_reset (h : hass_env) (w : world) : Prop :=
  _expires_at (self (snd (update h w))) = utcnow h + minutes 45.

(** The refresh left the three attributes as they were. *)
Definition state_kept (h : hass_env) (w : world) : Prop :=
  adapter_state (self (snd (update h w))) = adapter_state (self w).

(** The operations of the transcoding helper among the recorded actions. *)
Definition helper_operation (a : action) : bool :=
  match a with
  | GetImage _ _ | OpenCamera _ _ | GetReader | Close => true
  | GetEventVideoUrl _ | ImageFrameNew _ | CameraMjpegNew _
  | ProxyStream _ _ _ => false
  end.

(** [video_url], when present, is the file reference of a data item tagged 2
    of one of the events [observed]. *)
Definition url_from_observed (observed : list motion_event)
  (c : KodakSmartHomeCam) : Prop :=
  forall u, _video_url c = Some u ->
  exists e it, In e observed /\ In it (data e) /\
               file_type it = Some 2 /\ file it = Some u.

(** The entities the host can hold, with the events they have been shown:
    a constructed one, and what a refresh makes of one. *)
Inductive reachable : list motion_event -> KodakSmartHomeCam -> Prop :=
| reach_init (h : hass_env) (camera : device) (device_info : config)
             (c : KodakSmartHomeCam) :
    __init__ h camera device_info = Returned c ->
    reachable (get_motion_events h (device_id camera)) c
| reach_update (h : hass_env) (w : world) (observed : list motion_event) :
    reachable observed (self w) ->
    reachable (observed ++ fetched h w) (self (snd (update h w))).

(** ** The entity's read-only properties *)

(** [name], [unique_id] and [should_poll] of the class. *)
Module Entity.
Definition name (c : KodakSmartHomeCam) : string := _name c.
Definition unique_id (c : KodakSmartHomeCam) : string :=
  device_id (_camera c).
Definition should_poll (c : KodakSmartHomeCam) : bool := false.
End Entity.

(** The values of the state attributes. *)
Inductive attribute : Type :=
| AttrText (s : string)
| AttrUrl (u : option string)
| AttrId (i : option Z).

(** [homeassistant.const.ATTR_ATTRIBUTION] *)
Definition ATTR_ATTRIBUTION : string := "attribution".

(** [device_state_attributes]: the dict literal, in the order it is written.
    [ATTRIBUTION] is imported from the package's [__init__], which is not
    part of this file, and is a parameter. *)
Definition device_state_attributes (ATTRIBUTION : string)
  (c : KodakSmartHomeCam) : list (string * attribute) :=
  [(ATTR_ATTRIBUTION, AttrText ATTRIBUTION);
   ("device_id", AttrText (device_id (_camera c)));
   ("firmware", AttrText (firmware_version (_camera c)));
   ("timezone", AttrText (zone_id (_camera c)));
   ("video_url", AttrUrl (_video_url c));
   ("last_video_id", AttrId (_last_video_id c))].

(** [attrs[key]] on a dict written with distinct keys. *)
Fixpoint attribute_of (key : string) (attrs : list (string * attribute))
  : option attribute :=
  match attrs with
  | [] => None
  | (k, v) :: rest => if String.eqb k key then Some v else attribute_of key rest
  end.

(** ** [setup_platform] *)

Definition NOTIFICATION_TITLE : string := "Kodak Smart Home Camera Setup".

(** What [setup_platform] does to the host: the persistent notification and
    [add_entities(cams, True)].  The [_LOGGER] calls are left out, here as in
    the methods. *)
Inductive platform_action : Type :=
| PersistentNotificationCreate (message title notification_id : string)
| AddEntities (entities : list KodakSmartHomeCam) (update_before_add : bool).

(** The [for] loop over the devices: an online device is constructed and
    appended to [cams] (an exception of the constructor ends the loop and the
    function), an offline one is appended to [cam_offline]. *)
Fixpoint scan_devices (h : hass_env) (config : config)
  (devices : list device)
  (cams : list KodakSmartHomeCam) (cam_offline : list device)
  : outcome (list KodakSmartHomeCam * list device) :=
  match devices with
  | [] => Returned (cams, cam_offline)
  | camera :: rest =>
      if is_online camera
      then let! c := __init__ h camera config in
           scan_devices h config rest (cams ++ [c]) cam_offline
      else scan_devices h config rest cams (cam_offline ++ [camera])
  end.

(** The text of the notification for the offline devices. *)
Definition offline_message (cam_offline : list device) : string :=
  let cameras := String.concat ", " (map name cam_offline) in
  let err_msg :=
    ("Cameras are offline, following cameras: " ++ cameras ++ ".")%string in
  ("Error: " ++ err_msg ++ "<br />"
   ++ "It needs to be fixed in the Camera/Kodak Smart Home Portal. "
   ++ "Home Assistant reboot is required.")%string.

(** [setup_platform]: [get_devices] is what the data source's property of
    that name yields and [NOTIFICATION_ID] is imported from the package's
    [__init__]; neither is part of this file and both are parameters. *)
Definition setup_platform (NOTIFICATION_ID : string) (get_devices : list device)
  (h : hass_env) (config : config)
  : outcome bool * list platform_action :=
  match scan_devices h config get_devices [] [] with
  | Returned (cams, cam_offline) =>
      let notified :=
        match cam_offline with
        | [] => []
        | _ :: _ =>
            [PersistentNotificationCreate (offline_message cam_offline)
                                          NOTIFICATION_TITLE NOTIFICATION_ID]
        end in
      (Returned true, notified ++ [AddEntities cams true])
  | Raised x => (Raised x, [])
  end.

(** ** More vocabulary *)

(** [s] occurs in [t]. *)
Definition occurs_in (s t : string) : Prop :=
  exists a b, t = (a ++ s ++ b)%string.

(** The entities the host can hold, with the times of the calls that made
    them, the latest first: the time of each refresh so far, then the time of
    construction. *)
Inductive called_at : list datetime -> KodakSmartHomeCam -> Prop :=
| called_init (h : hass_env) (camera : device) (device_info : config)
              (c : KodakSmartHomeCam) :
    __init__ h camera device_info = Returned c ->
    called_at [utcnow h] c
| called_update (h : hass_env) (w : world) (times : list datetime) :
    called_at times (self w) ->
    called_at (utcnow h :: times) (self (snd (update h w))).

(** ** More sample data *)

Definition garage : device :=
  mk_device "cam-3" "Garage" "1.0.5" "Europe/London" false.
Definition shed : device :=
  mk_device "cam-4" "Shed" "1.0.5" "Europe/London" false.
Definition back_yard : device :=
  mk_device "cam-2" "Back yard" "1.0.7" "Europe/London" true.

(** An event whose item tagged 2 has no ["file"] key. *)
Definition event_F : motion_event :=
  mk_motion_event 105 [snapshot_item "https://cdn/f.jpg";
                       mk_data_item (Some 2) None;
                       video_item "https://cdn/f.mp4"].

(** A host whose data source holds [event_F] for the back yard and
    [event_A] for every other device. *)
Definition host_by_device (now : datetime) : hass_env :=
  mk_hass now
          (fun d => if String.eqb d "cam-2" then [event_F] else [event_A])
          "ffmpeg" "multipart/x-mixed-replace"
          (fun _ _ => Returned [255%nat; 216%nat])
          (fun _ _ => Returned tt)
          (Returned (StreamReader 7))
          (fun _ _ _ => Returned (WebResponse 200))
          (Returned tt).

(** A host whose helper cannot open the camera, and one whose helper fails
    to close after a good copy. *)
Definition host_open_fails (now : datetime) : hass_env :=
  mk_hass now (fun _ => []) "ffmpeg" "multipart/x-mixed-replace"
          (fun _ _ => Raised (HelperError "no frame"))
          (fun _ _ => Raised (HelperError "cannot open"))
          (Returned (StreamReader 7))
          (fun _ _ _ => Returned (WebResponse 200))
          (Returned tt).

Definition host_close_fails (now : datetime) : hass_env :=
  mk_hass now (fun _ => []) "ffmpeg" "multipart/x-mixed-replace"
          (fun _ _ => Returned [255%nat; 216%nat])
          (fun _ _ => Returned tt)
          (Returned (StreamReader 7))
          (fun _ _ _ => Returned (WebResponse 200))
          (Raised (HelperError "cannot close")).

(** Two logs are equal once their appends are flattened. *)
Ltac flat_log :=
  cbn [self log fst snd]; rewrite <- ?app_assoc; cbn [app]; reflexivity.

(** ** The freshness window *)

Lemma FORCE_REFRESH_INTERVAL_minutes : FORCE_REFRESH_INTERVAL = minutes 45.
Proof. reflexivity. Qed.

Lemma FORCE_REFRESH_INTERVAL_microseconds :
  FORCE_REFRESH_INTERVAL = 2700000000.
Proof. reflexivity. Qed.

(** ** Lists of events and of data items *)

Lemma last_of_nil : last_of [] = None.
Proof. reflexivity. Qed.

Lemma last_of_snoc (pre : list motion_event) (e : motion_event) :
  last_of (pre ++ [e]) = Some e.
Proof. unfold last_of. rewrite rev_app_distr. reflexivity. Qed.

Lemma last_of_Some (events : list motion_event) (e : motion_event) :
  last_of events = Some e -> exists pre, events = pre ++ [e].
Proof.
  unfold last_of. intros H.
  destruct (rev events) as [|x rest] eqn:E; [discriminate|].
  injection H as ->. exists (rev rest).
  rewrite <- (rev_involutive events), E. reflexivity.
Qed.

Lemma last_of_In (events : list motion_event) (e : motion_event) :
  last_of events = Some e -> In e events.
Proof.
  intros H. destruct (last_of_Some _ _ H) as [pre ->].
  apply in_or_app. right. left. reflexivity.
Qed.

Lemma nonempty_last_of (events : list motion_event) :
  nonempty events = true <-> last_of events <> None.
Proof.
  unfold nonempty. destruct events as [|e rest].
  - simpl. split; [discriminate | intros H; now elim H].
  - split; intros _.
    + unfold last_of. simpl rev. destruct (rev rest); simpl; discriminate.
    + apply Z.ltb_lt. simpl List.length. lia.
Qed.

Lemma nonempty_false (events : list motion_event) :
  nonempty events = false <-> events = [].
Proof.
  unfold nonempty. destruct events; simpl List.length.
  - split; reflexivity.
  - split; [|discriminate]. intros H. apply Z.ltb_ge in H. lia.
Qed.

Lemma is_video_true (it : data_item) :
  is_video it = true <-> file_type it = Some 2.
Proof.
  unfold is_video. destruct (file_type it) as [t|].
  - rewrite Z.eqb_eq. split; congruence.
  - split; discriminate.
Qed.

Lemma is_video_false (it : data_item) :
  is_video it = false <-> file_type it <> Some 2.
Proof.
  rewrite <- is_video_true. destruct (is_video it); split; congruence.
Qed.

(** No item is tagged 2: the scan falls through to the bare [return]. *)
Lemma get_url_no_video (events_data : list data_item) :
  (forall it, In it events_data -> file_type it <> Some 2) ->
  _get_event_video_url events_data = Returned None.
Proof.
  induction events_data as [|x rest IH]; intros H; simpl; [reflexivity|].
  assert (Hx : is_video x = false) by (apply is_video_false, H; now left).
  rewrite Hx. apply IH. intros it Hit. apply H. now right.
Qed.

(** The scan stops at the first item tagged 2 and reads its ["file"]. *)
Lemma get_url_first_video (before after : list data_item) (it : data_item) :
  (forall x, In x before -> file_type x <> Some 2) ->
  file_type it = Some 2 ->
  _get_event_video_url (before ++ it :: after) =
  match file it with
  | Some f => Returned (Some f)
  | None => Raised (KeyError "file")
  end.
Proof.
  intros Hb Hit. induction before as [|x rest IH]; simpl.
  - apply is_video_true in Hit. rewrite Hit. reflexivity.
  - assert (Hx : is_video x = false) by (apply is_video_false, Hb; now left).
    rewrite Hx. apply IH. intros y Hy. apply Hb. now right.
Qed.

(** A URL the scan returns is the ["file"] of an item tagged 2. *)
Lemma get_url_sound (events_data : list data_item) (u : string) :
  _get_event_video_url events_data = Returned (Some u) ->
  exists it, In it events_data /\ file_type it = Some 2 /\ file it = Some u.
Proof.
  induction events_data as [|x rest IH]; simpl; [discriminate|].
  destruct (is_video x) eqn:Hx.
  - destruct (file x) as [f|] eqn:Hf; [|discriminate].
    intros [= <-]. exists x. apply is_video_true in Hx. auto.
  - intros H. destruct (IH H) as (it & Hin & Ht & Hf). exists it. auto.
Qed.

Lemma truthy_Some (video_url : option string) :
  truthy video_url = true <->
  exists u, video_url = Some u /\ u <> "".
Proof.
  destruct video_url as [[|a u]|]; simpl; split.
  - discriminate.
  - intros (u & [= <-] & H). now elim H.
  - intros _. eexists. split; [reflexivity | discriminate].
  - reflexivity.
  - discriminate.
  - intros (u & H & _). discriminate.
Qed.

(** ** What one call of [update] does *)

Section Update.
Variable h : hass_env.
Variable w : world.

Let c := set_utcnow (utcnow h) (self w).

Lemma update_empty :
  fetched h w = [] ->
  update h w = (Returned tt, mk_world c (log w)).
Proof.
  unfold fetched. intros E.
  cbv [update bind hass modify_self fetch_motion_events get_self ret].
  cbn [self _camera set_utcnow]. rewrite E. reflexivity.
Qed.

Variable e : motion_event.
Hypothesis newest : last_of (fetched h w) = Some e.

Lemma update_idle :
  refresh_trigger c (id e) = false ->
  update h w = (Returned tt, mk_world c (log w)).
Proof.
  unfold fetched in newest. intros T.
  cbv [update bind hass modify_self fetch_motion_events get_self ret lift
       getitem_last].
  cbn [self _camera set_utcnow log].
  assert (N : nonempty (get_motion_events h (device_id (_camera (self w))))
              = true)
    by (apply nonempty_last_of; rewrite newest; discriminate).
  rewrite N. cbn [self _camera set_utcnow log]. rewrite newest.
  cbn [self log]. fold c. rewrite T. reflexivity.
Qed.

Lemma update_fired :
  refresh_trigger c (id e) = true ->
  update h w =
  let w1 := mk_world c (log w ++ [GetEventVideoUrl (data e)]) in
  match _get_event_video_url (data e) with
  | Returned video_url =>
      if truthy video_url
      then (Returned tt,
            mk_world (adopted c (id e) video_url) (log w1))
      else (Returned tt, w1)
  | Raised x => (Raised x, w1)
  end.
Proof.
  unfold fetched in newest. intros T.
  cbv [update bind hass modify_self fetch_motion_events get_self ret lift
       getitem_last record].
  cbn [self _camera set_utcnow log].
  assert (N : nonempty (get_motion_events h (device_id (_camera (self w))))
              = true)
    by (apply nonempty_last_of; rewrite newest; discriminate).
  rewrite N. cbn [self _camera set_utcnow log]. rewrite newest.
  cbn [self log]. fold c. rewrite T.
  destruct (_get_event_video_url (data e)) as [u|x]; [|reflexivity].
  destruct (truthy u); reflexivity.
Qed.
End Update.

(** Whatever [update] does, the entity it leaves is the old one with the new
    clock reading, or that one with the newest event adopted. *)
Lemma update_self (h : hass_env) (w : world) :
  let c := set_utcnow (utcnow h) (self w) in
  self (snd (update h w)) = c \/
  exists e u,
    last_of (fetched h w) = Some e /\
    refresh_trigger c (id e) = true /\
    _get_event_video_url (data e) = Returned u /\
    truthy u = true /\
    self (snd (update h w)) = adopted c (id e) u.
Proof.
  intros c. destruct (last_of (fetched h w)) as [e|] eqn:L.
  - destruct (refresh_trigger c (id e)) eqn:T.
    + rewrite (update_fired h w e L T). cbn zeta.
      destruct (_get_event_video_url (data e)) as [u|x] eqn:G; [|now left].
      destruct (truthy u) eqn:U; [|now left].
      right. exists e, u. auto.
    + rewrite (update_idle h w e L T). now left.
  - assert (E : fetched h w = []).
    { apply nonempty_false. destruct (nonempty (fetched h w)) eqn:N; [|easy].
      apply nonempty_last_of in N. now elim N. }
    rewrite (update_empty h w E). now left.
Qed.

Lemma update_camera (h : hass_env) (w : world) :
  _camera (self (snd (update h w))) = _camera (self w).
Proof.
  destruct (update_self h w) as [H | (e & u & _ & _ & _ & _ & H)];
    rewrite H; reflexivity.
Qed.

Lemma polls_camera (hs : list hass_env) (w : world) :
  _camera (self (polls hs w)) = _camera (self w).
Proof.
  revert w. induction hs as [|h hs IH]; intros w; simpl; [reflexivity|].
  rewrite IH. apply update_camera.
Qed.

(** ** Construction *)

(** C2, as amended. On every event sequence in which the first data item
    tagged 2 of the last event, if there is one, carries a file reference,
    construction sets [last_video_id] to the id of the last event of the
    sequence (absent on the empty sequence), [video_url] to the file
    reference of the first data item of that event whose file-type tag is 2
    (absent when the sequence is empty or no item is tagged 2), and
    [expires_at] to the construction time plus 45 minutes. *)
Theorem init_adopts_newest_event
  (h : hass_env) (camera : device) (device_info : config) :
  let events := get_motion_events h (device_id camera) in
  let expiry := utcnow h + minutes 45 in
  (events = [] ->
   exists c, __init__ h camera device_info = Returned c /\
             adapter_state c = (None, None, expiry)) /\
  (forall pre e,
     events = pre ++ [e] ->
     (forall it, In it (data e) -> file_type it <> Some 2) ->
     exists c, __init__ h camera device_info = Returned c /\
               adapter_state c = (Some (id e), None, expiry)) /\
  (forall pre e before it after f,
     events = pre ++ [e] ->
     data e = before ++ it :: after ->
     (forall x, In x before -> file_type x <> Some 2) ->
     file_type it = Some 2 ->
     file it = Some f ->
     exists c, __init__ h camera device_info = Returned c /\
               adapter_state c = (Some (id e), Some f, expiry)).
Proof.
  intros events expiry. subst events expiry. unfold __init__.
  split; [|split].
  - intros ->. cbn. eexists. split; [reflexivity|].
    unfold adapter_state. cbn. rewrite FORCE_REFRESH_INTERVAL_minutes.
    f_equal. lia.
  - intros pre e -> Hno.
    assert (N : nonempty (pre ++ [e]) = true)
      by (apply nonempty_last_of; rewrite last_of_snoc; discriminate).
    rewrite N. unfold getitem_last. rewrite last_of_snoc. cbn.
    rewrite (get_url_no_video _ Hno). cbn.
    eexists. split; [reflexivity|].
    unfold adapter_state. cbn. rewrite FORCE_REFRESH_INTERVAL_minutes.
    f_equal. lia.
  - intros pre e before it after f -> Hd Hb Ht Hf.
    assert (N : nonempty (pre ++ [e]) = true)
      by (apply nonempty_last_of; rewrite last_of_snoc; discriminate).
    rewrite N. unfold getitem_last. rewrite last_of_snoc. cbn.
    rewrite Hd, (get_url_first_video before after it Hb Ht), Hf. cbn.
    eexists. split; [reflexivity|].
    unfold adapter_state. cbn. rewrite FORCE_REFRESH_INTERVAL_minutes.
    f_equal. lia.
Qed.

Lemma init_adopts_newest_event_witness :
  exists c, __init__ (host 0 [event_A]) front_door no_config = Returned c /\
            adapter_state c
            = (Some 101, Some "https://cdn/a.mp4", 0 + minutes 45).
Proof.
  apply (proj2 (proj2 (init_adopts_newest_event
                         (host 0 [event_A]) front_door no_config))
           [] event_A [snapshot_item "https://cdn/a.jpg"]
           (video_item "https://cdn/a.mp4")
           [video_item "https://cdn/a-2.mp4"] "https://cdn/a.mp4").
  - reflexivity.
  - reflexivity.
  - cbn. intros x [<-|[]]. discriminate.
  - reflexivity.
  - reflexivity.
Defined.

(** C2 as the specification words it fails: the last event has items
    tagged 2, the first of them has no ["file"] key, and construction raises
    instead of setting the three attributes. *)
Lemma init_missing_file_raises :
  let h := host 0 [event_F] in
  (exists it, In it (data event_F) /\ file_type it = Some 2) /\
  __init__ h front_door no_config = Raised (KeyError "file") /\
  ~ (exists c, __init__ h front_door no_config = Returned c /\
               _last_video_id c = Some (id event_F) /\
               _expires_at c = utcnow h + minutes 45).
Proof.
  intros h. split; [|split].
  - exists (mk_data_item (Some 2) None). split; [right; now left | reflexivity].
  - reflexivity.
  - intros (c & R & _). discriminate.
Qed.

(** ** Refresh: frame properties *)

(** C3. When the newest fetched event has no data item tagged 2, refresh
    returns normally and leaves [video_url] and [last_video_id] as they
    were, whatever the state and so also when the trigger condition
    holds. *)
Theorem update_without_video_keeps_state
  (h : hass_env) (w : world) (e : motion_event) :
  last_of (fetched h w) = Some e ->
  (forall it, In it (data e) -> file_type it <> Some 2) ->
  fst (update h w) = Returned tt /\
  _video_url (self (snd (update h w))) = _video_url (self w) /\
  _last_video_id (self (snd (update h w))) = _last_video_id (self w).
Proof.
  intros L Hno.
  destruct (refresh_trigger (set_utcnow (utcnow h) (self w)) (id e)) eqn:T.
  - rewrite (update_fired h w e L T), (get_url_no_video _ Hno).
    cbn. auto.
  - rewrite (update_idle h w e L T). cbn. auto.
Qed.

Lemma update_without_video_keeps_state_witness :
  let h := host 5 [event_A; event_C] in
  let w := fresh cam_A in
  refresh_trigger (set_utcnow (utcnow h) (self w)) (id event_C) = true /\
  fst (update h w) = Returned tt /\
  _video_url (self (snd (update h w))) = Some "https://cdn/a.mp4" /\
  _last_video_id (self (snd (update h w))) = Some 101.
Proof.
  split; [reflexivity|].
  apply (update_without_video_keeps_state
           (host 5 [event_A; event_C]) (fresh cam_A) event_C).
  - reflexivity.
  - cbn. intros it [<-|[<-|[]]]; discriminate.
Defined.

(** C4. On an empty event sequence construction leaves [video_url] and
    [last_video_id] absent, one refresh is a no-op on the adapter state, and
    so is any number of refreshes while the sequence stays empty. *)
Theorem empty_sequence_is_a_no_op
  (h : hass_env) (camera : device) (device_info : config)
  (hs : list hass_env) (l : list action) :
  get_motion_events h (device_id camera) = [] ->
  Forall (fun h' => get_motion_events h' (device_id camera) = []) hs ->
  exists c,
    __init__ h camera device_info = Returned c /\
    _last_video_id c = None /\ _video_url c = None /\
    (forall h' w,
       _camera (self w) = camera ->
       get_motion_events h' (device_id camera) = [] ->
       fst (update h' w) = Returned tt /\
       adapter_state (self (snd (update h' w))) = adapter_state (self w) /\
       log (snd (update h' w)) = log w) /\
    adapter_state (self (polls hs (mk_world c l))) = adapter_state c /\
    _last_video_id (self (polls hs (mk_world c l))) = None /\
    _video_url (self (polls hs (mk_world c l))) = None.
Proof.
  intros E Hs.
  assert (One : forall h' w,
             _camera (self w) = camera ->
             get_motion_events h' (device_id camera) = [] ->
             fst (update h' w) = Returned tt /\
             adapter_state (self (snd (update h' w))) = adapter_state (self w)
             /\ log (snd (update h' w)) = log w).
  { intros h' w Hc E'. rewrite (update_empty h' w).
    - cbn. auto.
    - unfold fetched. rewrite Hc. exact E'. }
  assert (Many : forall w,
             _camera (self w) = camera ->
             adapter_state (self (polls hs w)) = adapter_state (self w)).
  { induction Hs as [|h' hs' E' _ IH]; intros w Hc; simpl; [reflexivity|].
    rewrite IH.
    - apply (One h' w Hc E').
    - rewrite update_camera. exact Hc. }
  set (c0 := mk_cam camera [] (name camera) (ffmpeg_arguments device_info)
                   None None (utcnow h) (FORCE_REFRESH_INTERVAL + utcnow h)).
  exists c0.
  split. { unfold __init__. rewrite E. reflexivity. }
  split; [reflexivity|]. split; [reflexivity|]. split; [exact One|].
  pose proof (Many (mk_world c0 l) eq_refl) as HM. cbn [self] in HM.
  split; [exact HM|].
  unfold adapter_state in HM. injection HM as H1 H2 _.
  split; [exact H1 | exact H2].
Qed.

Lemma empty_sequence_is_a_no_op_witness :
  exists c,
    __init__ (host 0 []) front_door no_config = Returned c /\
    _last_video_id c = None /\ _video_url c = None /\
    adapter_state (self (polls [host 5 []; host 9 []] (fresh c)))
    = adapter_state c.
Proof.
  destruct (empty_sequence_is_a_no_op (host 0 []) front_door no_config
              [host 5 []; host 9 []] [])
    as (c & Hinit & Hid & Hurl & _ & Hpolls & _).
  - reflexivity.
  - repeat constructor.
  - exists c. auto.
Defined.

(** ** Refresh: the trigger and what it guards *)

Lemma id_differs_true (last_video_id : option Z) (i : Z) :
  id_differs last_video_id i = true <-> last_video_id <> Some i.
Proof.
  destruct last_video_id as [j|]; cbn.
  - rewrite negb_true_iff, Z.eqb_neq. split; congruence.
  - split; [discriminate | reflexivity].
Qed.

(** The condition of the [if] is the trigger of the specification. *)
Lemma refresh_trigger_true (h : hass_env) (w : world) (e : motion_event) :
  refresh_trigger (set_utcnow (utcnow h) (self w)) (id e) = true <->
  trigger_condition h w e.
Proof.
  unfold refresh_trigger, trigger_condition. cbn.
  rewrite orb_true_iff, id_differs_true, Z.leb_le. reflexivity.
Qed.

Lemma refresh_trigger_false (h : hass_env) (w : world) (e : motion_event) :
  refresh_trigger (set_utcnow (utcnow h) (self w)) (id e) = false <->
  ~ trigger_condition h w e.
Proof.
  rewrite <- refresh_trigger_true.
  destruct (refresh_trigger _ _); split; congruence.
Qed.

Lemma last_of_None (events : list motion_event) :
  last_of events = None -> events = [].
Proof.
  intros L. apply nonempty_false.
  destruct (nonempty events) eqn:N; [|reflexivity].
  apply nonempty_last_of in N. now elim N.
Qed.

(** The three attributes after a refresh, by cases as the code takes them. *)
Lemma update_adapter_state (h : hass_env) (w : world) :
  adapter_state (self (snd (update h w))) =
  match last_of (fetched h w) with
  | Some e =>
      if refresh_trigger (set_utcnow (utcnow h) (self w)) (id e)
      then match _get_event_video_url (data e) with
           | Returned u =>
               if truthy u
               then (Some (id e), u, FORCE_REFRESH_INTERVAL + utcnow h)
               else adapter_state (self w)
           | Raised _ => adapter_state (self w)
           end
      else adapter_state (self w)
  | None => adapter_state (self w)
  end.
Proof.
  destruct (last_of (fetched h w)) as [e|] eqn:L.
  - destruct (refresh_trigger _ (id e)) eqn:T.
    + rewrite (update_fired h w e L T). cbn zeta.
      destruct (_get_event_video_url (data e)) as [u|x]; [|reflexivity].
      destruct (truthy u); reflexivity.
    + rewrite (update_idle h w e L T). reflexivity.
  - rewrite (update_empty h w (last_of_None _ L)). reflexivity.
Qed.

(** A refresh that finds no non-empty URL changes none of the three
    attributes, whatever the trigger. *)
Lemma update_keeps_state_without_url
  (h : hass_env) (w : world) (e : motion_event) :
  last_of (fetched h w) = Some e ->
  (forall u, _get_event_video_url (data e) = Returned (Some u) -> u = "") ->
  state_kept h w.
Proof.
  intros L G. unfold state_kept. rewrite update_adapter_state, L.
  destruct (refresh_trigger _ (id e)); [|reflexivity].
  destruct (_get_event_video_url (data e)) as [u|x]; [|reflexivity].
  destruct (truthy u) eqn:U; [|reflexivity].
  apply truthy_Some in U. destruct U as (s & -> & Hs).
  now elim Hs; apply G.
Qed.

(** C1, as amended. On a non-empty fetched sequence the refresh calls the
    adopt-URL procedure on the newest event's data exactly when the newest
    id differs from [last_video_id] or the time is at or past [expires_at];
    it adopts the id and the URL and resets [expires_at] when the condition
    holds and the procedure returns a non-empty URL; when the condition is
    false, or the procedure returns no non-empty URL, the three attributes
    are left unchanged. *)
Theorem update_fires_iff_trigger
  (h : hass_env) (w : world) (e : motion_event) :
  last_of (fetched h w) = Some e ->
  (trigger_condition h w e <-> fires_adoption h w e) /\
  (forall u,
     trigger_condition h w e ->
     _get_event_video_url (data e) = Returned (Some u) -> u <> "" ->
     adapter_state (self (snd (update h w)))
     = (Some (id e), Some u, utcnow h + minutes 45) /\
     expiry_reset h w) /\
  ((forall u, _get_event_video_url (data e) = Returned (Some u) -> u = "") ->
   state_kept h w) /\
  (~ trigger_condition h w e -> state_kept h w).
Proof.
  intros L. unfold fires_adoption, expiry_reset, state_kept.
  split; [|split; [|split]].
  - split.
    + intros T. apply refresh_trigger_true in T.
      rewrite (update_fired h w e L T). cbn zeta.
      destruct (_get_event_video_url (data e)) as [u|x]; [|reflexivity].
      destruct (truthy u); reflexivity.
    + intros F. apply refresh_trigger_true.
      destruct (refresh_trigger _ (id e)) eqn:T; [reflexivity|].
      rewrite (update_idle h w e L T) in F. cbn in F.
      rewrite <- (app_nil_r (log w)) in F at 1.
      apply app_inv_head in F. discriminate.
  - intros u T G U. apply refresh_trigger_true in T.
    assert (A : adapter_state (self (snd (update h w)))
                = (Some (id e), Some u, utcnow h + minutes 45)).
    { rewrite update_adapter_state, L, T, G.
      assert (Tu : truthy (Some u) = true)
        by (apply truthy_Some; exists u; auto).
      rewrite Tu, FORCE_REFRESH_INTERVAL_minutes. f_equal. lia. }
    split; [exact A|]. unfold adapter_state in A. congruence.
  - intros G. exact (update_keeps_state_without_url h w e L G).
  - intros T. apply refresh_trigger_false in T.
    rewrite update_adapter_state, L, T. reflexivity.
Qed.

Lemma update_fires_iff_trigger_witness :
  let h := host 5 [event_A; event_B] in
  let w := fresh cam_A in
  (trigger_condition h w event_B <-> fires_adoption h w event_B) /\
  adapter_state (self (snd (update h w)))
  = (Some 102, Some "https://cdn/b.mp4", 5 + minutes 45).
Proof.
  intros h w.
  destruct (update_fires_iff_trigger h w event_B eq_refl)
    as (Fires & Adopts & _ & _).
  split; [exact Fires|].
  apply (Adopts "https://cdn/b.mp4").
  - left. discriminate.
  - reflexivity.
  - discriminate.
Defined.

(** C1 as the specification words it fails: the newest event differs, so the
    adopt-URL procedure is called, but the event has no item tagged 2 and
    [expires_at] keeps its old value. *)
Lemma update_trigger_without_reset :
  let h := host 5 [event_A; event_C] in
  let w := fresh cam_A in
  last_of (fetched h w) = Some event_C /\
  ~ (trigger_condition h w event_C <->
     fires_adoption h w event_C /\ expiry_reset h w).
Proof.
  intros h w. split; [reflexivity|].
  intros [To _].
  assert (T : trigger_condition h w event_C) by (left; discriminate).
  destruct (To T) as [_ R]. unfold expiry_reset in R.
  vm_compute in R. discriminate.
Qed.

(** A second refresh on the sequence the first one fetched, before the
    [expires_at] the first one left, adopts nothing. *)
Lemma second_update_adopts_nothing (h1 h2 : hass_env) (w : world) :
  fetched h2 w = fetched h1 w ->
  utcnow h2 < _expires_at (self (snd (update h1 w))) ->
  adapter_state (self (snd (update h2 (snd (update h1 w)))))
  = adapter_state (self (snd (update h1 w))).
Proof.
  intros Same Before2.
  assert (Same' : fetched h2 (snd (update h1 w)) = fetched h1 w).
  { unfold fetched in *. rewrite update_camera. exact Same. }
  rewrite (update_adapter_state h2), Same'.
  destruct (last_of (fetched h1 w)) as [e|] eqn:L; [|reflexivity].
  destruct (refresh_trigger (set_utcnow (utcnow h2) _) (id e)) eqn:T2;
    [|reflexivity].
  destruct (_get_event_video_url (data e)) as [u|x] eqn:G; [|reflexivity].
  destruct (truthy u) eqn:U; [|reflexivity].
  (* the second refresh would adopt: then the first one did, and the
     trigger of the second cannot hold *)
  exfalso.
  apply refresh_trigger_true in T2. unfold trigger_condition in T2.
  destruct (refresh_trigger (set_utcnow (utcnow h1) (self w)) (id e)) eqn:T1.
  - rewrite (update_fired h1 w e L T1), G in T2, Before2. cbn zeta in *.
    rewrite U in T2, Before2. cbn in T2, Before2.
    destruct T2 as [T2|T2]; [now elim T2 | lia].
  - rewrite (update_idle h1 w e L T1) in T2, Before2. cbn in T2, Before2.
    unfold refresh_trigger in T1. cbn in T1.
    apply orb_false_iff in T1. destruct T1 as [D _].
    destruct T2 as [T2|T2]; [|lia].
    apply id_differs_true in T2. congruence.
Qed.

(** C5. Two refreshes on the same fetched sequence, each before the
    [expires_at] in force when it runs: the second leaves the adapter state
    the first one left. *)
Theorem update_idempotent_before_expiry (h1 h2 : hass_env) (w : world) :
  fetched h2 w = fetched h1 w ->
  utcnow h1 < _expires_at (self w) ->
  utcnow h2 < _expires_at (self (snd (update h1 w))) ->
  adapter_state (self (snd (update h2 (snd (update h1 w)))))
  = adapter_state (self (snd (update h1 w))).
Proof.
  intros Same _ Before2. exact (second_update_adopts_nothing h1 h2 w Same Before2).
Qed.

Lemma update_idempotent_before_expiry_witness :
  let h1 := host 5 [event_A; event_B] in
  let h2 := host 9 [event_A; event_B] in
  let w := fresh cam_A in
  adapter_state (self (snd (update h1 w)))
  = (Some 102, Some "https://cdn/b.mp4", FORCE_REFRESH_INTERVAL + 5) /\
  adapter_state (self (snd (update h2 (snd (update h1 w)))))
  = adapter_state (self (snd (update h1 w))).
Proof.
  intros h1 h2 w. split; [reflexivity|].
  apply (update_idempotent_before_expiry h1 h2 w).
  - reflexivity.
  - vm_compute. reflexivity.
  - vm_compute. reflexivity.
Defined.

(** The same under the other reading of "before [expires_at]": both
    refreshes before the [expires_at] of the state they start from, the clock
    not running backwards, and that [expires_at] no later than one window
    after the first refresh (as it is for every [expires_at] the entity set
    itself at an earlier time). *)
Lemma update_idempotent_before_initial_expiry
  (h1 h2 : hass_env) (w : world) :
  fetched h2 w = fetched h1 w ->
  utcnow h1 <= utcnow h2 ->
  utcnow h2 < _expires_at (self w) ->
  _expires_at (self w) <= FORCE_REFRESH_INTERVAL + utcnow h1 ->
  adapter_state (self (snd (update h2 (snd (update h1 w)))))
  = adapter_state (self (snd (update h1 w))).
Proof.
  intros Same Mono Before Inv.
  apply second_update_adopts_nothing; [exact Same |].
  pose proof (update_adapter_state h1 w) as A.
  destruct (last_of (fetched h1 w)) as [e|].
  - destruct (refresh_trigger _ (id e)).
    + destruct (_get_event_video_url (data e)) as [u|x].
      * destruct (truthy u); unfold adapter_state in A;
          injection A as _ _ A; rewrite A; lia.
      * unfold adapter_state in A; injection A as _ _ A; rewrite A; lia.
    + unfold adapter_state in A; injection A as _ _ A; rewrite A; lia.
  - unfold adapter_state in A; injection A as _ _ A; rewrite A; lia.
Qed.

(** The bound used above holds of every entity the host can hold as long as
    its clock does not run backwards: construction sets [expires_at] one
    window after its own time, and a refresh keeps it or sets it one window
    after its own time. *)
Lemma init_expiry (h : hass_env) (camera : device) (device_info : config)
  (c : KodakSmartHomeCam) :
  __init__ h camera device_info = Returned c ->
  _expires_at c = FORCE_REFRESH_INTERVAL + utcnow h.
Proof.
  unfold __init__.
  destruct (if nonempty _ then _ else _) as [i|x]; cbn; [|discriminate].
  destruct (match i with Some _ => _ | None => _ end) as [u|x]; cbn;
    [|discriminate].
  intros [= <-]. reflexivity.
Qed.

Lemma update_expiry_bound (h : hass_env) (w : world) (t : datetime) :
  _expires_at (self w) <= FORCE_REFRESH_INTERVAL + t ->
  t <= utcnow h ->
  _expires_at (self (snd (update h w))) <= FORCE_REFRESH_INTERVAL + utcnow h.
Proof.
  intros B Mono.
  destruct (update_self h w) as [H | (e & u & _ & _ & _ & _ & H)];
    rewrite H; cbn; lia.
Qed.

(** C6, as amended. A refresh at or past [expires_at] whose newest event's
    first data item tagged 2 carries a non-empty file reference returns
    normally and sets [expires_at] to the time of the refresh plus 45
    minutes, also when the event's id is [last_video_id]. *)
Theorem forced_refresh_resets_expiry
  (h : hass_env) (w : world) (e : motion_event)
  (before after : list data_item) (it : data_item) (f : string) :
  last_of (fetched h w) = Some e ->
  _expires_at (self w) <= utcnow h ->
  data e = before ++ it :: after ->
  (forall x, In x before -> file_type x <> Some 2) ->
  file_type it = Some 2 ->
  file it = Some f ->
  f <> "" ->
  fst (update h w) = Returned tt /\
  _expires_at (self (snd (update h w))) = utcnow h + minutes 45 /\
  _video_url (self (snd (update h w))) = Some f /\
  _last_video_id (self (snd (update h w))) = Some (id e).
Proof.
  intros L Late Hd Hb Ht Hf Hne.
  assert (T : refresh_trigger (set_utcnow (utcnow h) (self w)) (id e) = true)
    by (apply refresh_trigger_true; right; exact Late).
  assert (G : _get_event_video_url (data e) = Returned (Some f))
    by (rewrite Hd, (get_url_first_video before after it Hb Ht), Hf;
        reflexivity).
  assert (U : truthy (Some f) = true) by (apply truthy_Some; exists f; auto).
  rewrite (update_fired h w e L T), G. cbn zeta. rewrite U. cbn.
  rewrite FORCE_REFRESH_INTERVAL_minutes.
  repeat split. lia.
Qed.

Lemma forced_refresh_resets_expiry_witness :
  let h := host (minutes 50) [event_A] in
  let w := fresh cam_A in
  _last_video_id (self w) = Some (id event_A) /\
  fst (update h w) = Returned tt /\
  _expires_at (self (snd (update h w))) = minutes 50 + minutes 45 /\
  _video_url (self (snd (update h w))) = Some "https://cdn/a.mp4" /\
  _last_video_id (self (snd (update h w))) = Some 101.
Proof.
  intros h w. split; [reflexivity|].
  apply (forced_refresh_resets_expiry h w event_A
           [snapshot_item "https://cdn/a.jpg"]
           [video_item "https://cdn/a-2.mp4"]
           (video_item "https://cdn/a.mp4") "https://cdn/a.mp4").
  - reflexivity.
  - vm_compute. discriminate.
  - reflexivity.
  - cbn. intros x [<-|[]]. discriminate.
  - reflexivity.
  - reflexivity.
  - discriminate.
Defined.

(** C6 as the specification words it fails: the refresh is past
    [expires_at] and the newest event has items tagged 2, but the first of
    them carries the empty string, and [expires_at] is not moved. *)
Lemma forced_refresh_empty_file_no_reset :
  let h := host (minutes 50) [event_E] in
  let w := fresh cam_A in
  last_of (fetched h w) = Some event_E /\
  ~ (_expires_at (self w) <= utcnow h ->
     (exists it, In it (data event_E) /\ file_type it = Some 2) ->
     _expires_at (self (snd (update h w))) = utcnow h + minutes 45).
Proof.
  intros h w. split; [reflexivity|].
  intros H.
  assert (Late : _expires_at (self w) <= utcnow h)
    by (vm_compute; discriminate).
  specialize (H Late).
  assert (R : _expires_at (self (snd (update h w))) = utcnow h + minutes 45).
  { apply H. exists (video_item ""). split; [now left | reflexivity]. }
  vm_compute in R. discriminate.
Qed.

(** ** The published URL comes from an observed event *)

Lemma url_from_observed_more (observed more : list motion_event)
  (c : KodakSmartHomeCam) :
  url_from_observed observed c -> url_from_observed (observed ++ more) c.
Proof.
  intros I u Hu. destruct (I u Hu) as (e & it & He & Hrest).
  exists e, it. split; [apply in_or_app; now left | exact Hrest].
Qed.

Lemma init_url_from_observed
  (h : hass_env) (camera : device) (device_info : config)
  (c : KodakSmartHomeCam) :
  __init__ h camera device_info = Returned c ->
  url_from_observed (get_motion_events h (device_id camera)) c.
Proof.
  unfold __init__, getitem_last.
  set (events := get_motion_events h (device_id camera)).
  destruct (nonempty events); cbn.
  - destruct (last_of events) as [e|] eqn:L; cbn; [|discriminate].
    destruct (_get_event_video_url (data e)) as [url|x] eqn:G; cbn;
      [|discriminate].
    intros [= <-] u Hu. cbn in Hu. subst url.
    destruct (get_url_sound _ _ G) as (it & Hin & Ht & Hf).
    exists e, it. split; [exact (last_of_In _ _ L) | auto].
  - intros [= <-] u Hu. discriminate.
Qed.

Lemma update_url_from_observed (h : hass_env) (w : world)
  (observed : list motion_event) :
  url_from_observed observed (self w) ->
  url_from_observed (observed ++ fetched h w) (self (snd (update h w))).
Proof.
  intros I.
  destruct (update_self h w) as [H | (e & url & L & _ & G & _ & H)];
    rewrite H.
  - apply url_from_observed_more. exact I.
  - intros u Hu. cbn in Hu. subst url.
    destruct (get_url_sound _ _ G) as (it & Hin & Ht & Hf).
    exists e, it. split; [|auto].
    apply in_or_app. right. exact (last_of_In _ _ L).
Qed.

(** C7. After construction and after every refresh, a [video_url] that is
    present is the file reference of a data item tagged 2 in the data of an
    event the entity fetched: no URL comes from anywhere else. *)
Theorem video_url_from_observed_event
  (observed : list motion_event) (c : KodakSmartHomeCam) :
  reachable observed c -> url_from_observed observed c.
Proof.
  induction 1 as [h camera device_info c Hinit | h w observed _ IH].
  - exact (init_url_from_observed h camera device_info c Hinit).
  - exact (update_url_from_observed h w observed IH).
Qed.

Lemma video_url_from_observed_event_witness :
  let c := self (snd (update (host 5 [event_A; event_B]) (fresh cam_A))) in
  _video_url c = Some "https://cdn/b.mp4" /\
  url_from_observed ([event_A] ++ [event_A; event_B]) c.
Proof.
  intros c. split; [reflexivity|].
  apply (video_url_from_observed_event
           ([event_A] ++ fetched (host 5 [event_A; event_B]) (fresh cam_A)) c).
  apply (reach_update (host 5 [event_A; event_B]) (fresh cam_A) [event_A]).
  apply (reach_init (host 0 [event_A]) front_door no_config cam_A).
  reflexivity.
Defined.

(** ** Still image and stream *)

(** C8. With [video_url] absent the still-image fetch and the stream proxy
    both return nothing and perform no operation of the transcoding helper:
    the stream proxy does nothing at all, the still-image fetch only builds
    its [ImageFrame] wrapper. *)
Theorem absent_url_yields_nothing
  (h : hass_env) (w : world) (request : web_request) :
  _video_url (self w) = None ->
  async_camera_image h w
  = (Returned None,
     mk_world (self w) (log w ++ [ImageFrameNew (ffmpeg_binary h)])) /\
  handle_async_mjpeg_stream request h w = (Returned None, w) /\
  filter helper_operation (log (snd (async_camera_image h w)))
  = filter helper_operation (log w) /\
  filter helper_operation (log (snd (handle_async_mjpeg_stream request h w)))
  = filter helper_operation (log w).
Proof.
  intros U.
  assert (I : async_camera_image h w
              = (Returned None,
                 mk_world (self w) (log w ++ [ImageFrameNew (ffmpeg_binary h)]))).
  { cbv [async_camera_image bind hass record get_self]. cbn [self].
    rewrite U. reflexivity. }
  assert (S : handle_async_mjpeg_stream request h w = (Returned None, w)).
  { cbv [handle_async_mjpeg_stream bind get_self]. rewrite U. reflexivity. }
  rewrite I, S. cbn [snd log].
  repeat split. rewrite filter_app. cbn. apply app_nil_r.
Qed.

Lemma absent_url_yields_nothing_witness :
  async_camera_image (host 5 []) (fresh cam_blank)
  = (Returned None, mk_world cam_blank [ImageFrameNew "ffmpeg"]) /\
  handle_async_mjpeg_stream (WebRequest 1) (host 5 []) (fresh cam_blank)
  = (Returned None, fresh cam_blank).
Proof.
  destruct (absent_url_yields_nothing (host 5 []) (fresh cam_blank)
              (WebRequest 1) eq_refl) as (I & S & _).
  split; [exact I | exact S].
Defined.

(** What the stream proxy does once the session is open: the [try] body,
    then [close] in the [finally]. *)
Lemma stream_after_open (h : hass_env) (w : world) (request : web_request)
  (u : string) :
  _video_url (self w) = Some u ->
  open_camera_ends h u (_ffmpeg_arguments (self w)) = Returned tt ->
  let opened := log w ++ [CameraMjpegNew (ffmpeg_binary h);
                          OpenCamera u (_ffmpeg_arguments (self w))] in
  let content_type := ffmpeg_stream_content_type h in
  handle_async_mjpeg_stream request h w =
  match get_reader_ends h with
  | Returned reader =>
      let copied := opened ++ [GetReader;
                               ProxyStream request reader content_type;
                               Close] in
      match proxy_stream_ends h request reader content_type, close_ends h with
      | _, Raised x => (Raised x, mk_world (self w) copied)
      | Returned response, Returned _ =>
          (Returned (Some response), mk_world (self w) copied)
      | Raised x, Returned _ => (Raised x, mk_world (self w) copied)
      end
  | Raised x =>
      let failed := opened ++ [GetReader; Close] in
      match close_ends h with
      | Returned _ => (Raised x, mk_world (self w) failed)
      | Raised x' => (Raised x', mk_world (self w) failed)
      end
  end.
Proof.
  intros U O.
  cbv [handle_async_mjpeg_stream bind get_self hass record await lift
       try_finally ret].
  cbn [self log]. rewrite U, O. cbn zeta.
  destruct (get_reader_ends h) as [reader|x].
  - destruct (proxy_stream_ends h request reader _) as [response|x];
      destruct (close_ends h) as [[]|x']; flat_log.
  - destruct (close_ends h) as [[]|x']; flat_log.
Qed.

(** When [open_camera] itself raises there is no session: nothing more is
    asked of the helper and the exception goes to the caller. *)
Lemma stream_open_raises (h : hass_env) (w : world) (request : web_request)
  (u : string) (x : exn) :
  _video_url (self w) = Some u ->
  open_camera_ends h u (_ffmpeg_arguments (self w)) = Raised x ->
  handle_async_mjpeg_stream request h w
  = (Raised x,
     mk_world (self w)
              (log w ++ [CameraMjpegNew (ffmpeg_binary h);
                         OpenCamera u (_ffmpeg_arguments (self w))])).
Proof.
  intros U O.
  cbv [handle_async_mjpeg_stream bind get_self hass record await lift].
  cbn [self log]. rewrite U, O. flat_log.
Qed.

(** C9. Once the stream proxy has opened a helper session against a present
    [video_url], [close] is the last thing it does on every path: the reader
    obtained or not, the copy finished or failed, and whatever [close] itself
    does; only then does the result or the exception reach the caller. *)
Theorem stream_session_always_closed
  (h : hass_env) (w : world) (request : web_request) (u : string) :
  _video_url (self w) = Some u ->
  open_camera_ends h u (_ffmpeg_arguments (self w)) = Returned tt ->
  exists mid,
    log (snd (handle_async_mjpeg_stream request h w))
    = log w ++ [CameraMjpegNew (ffmpeg_binary h);
                OpenCamera u (_ffmpeg_arguments (self w))]
            ++ mid ++ [Close] /\
    ~ In Close mid /\
    (mid = [GetReader] \/
     exists reader,
       mid = [GetReader;
              ProxyStream request reader (ffmpeg_stream_content_type h)]).
Proof.
  intros U O. rewrite (stream_after_open h w request u U O). cbn zeta.
  destruct (get_reader_ends h) as [reader|x].
  - exists [GetReader;
            ProxyStream request reader (ffmpeg_stream_content_type h)].
    split; [|split].
    + destruct (proxy_stream_ends h request reader _) as [response|x];
        destruct (close_ends h) as [[]|x']; flat_log.
    + intros [F|[F|[]]]; discriminate.
    + right. exists reader. reflexivity.
  - exists [GetReader]. split; [|split].
    + destruct (close_ends h) as [[]|x']; flat_log.
    + intros [F|[]]; discriminate.
    + now left.
Qed.

Lemma stream_session_always_closed_witness :
  let h := host_reader_fails 5 [] in
  fst (handle_async_mjpeg_stream (WebRequest 1) h (fresh cam_A))
  = Raised (HelperError "no reader") /\
  exists mid,
    log (snd (handle_async_mjpeg_stream (WebRequest 1) h (fresh cam_A)))
    = [] ++ [CameraMjpegNew "ffmpeg"; OpenCamera "https://cdn/a.mp4" None]
         ++ mid ++ [Close] /\
    ~ In Close mid /\
    (mid = [GetReader] \/
     exists reader,
       mid = [GetReader; ProxyStream (WebRequest 1) reader
                                     "multipart/x-mixed-replace"]).
Proof.
  intros h. split; [reflexivity|].
  apply (stream_session_always_closed h (fresh cam_A) (WebRequest 1)
           "https://cdn/a.mp4").
  - reflexivity.
  - reflexivity.
Defined.

(** ** The empty file reference *)

(** C10. When the first data item tagged 2 of the newest event carries the
    empty string as file reference, construction adopts it as [video_url],
    while refresh, whose guard is the truth value of the URL, returns
    normally and leaves [last_video_id], [video_url] and [expires_at] as they
    were, as it does when no item is tagged 2. *)
Theorem empty_file_reference_init_adopts_update_rejects
  (h : hass_env) (camera : device) (device_info : config)
  (h' : hass_env) (w : world)
  (pre : list motion_event) (e : motion_event)
  (before after : list data_item) (it : data_item) :
  data e = before ++ it :: after ->
  (forall x, In x before -> file_type x <> Some 2) ->
  file_type it = Some 2 ->
  file it = Some "" ->
  get_motion_events h (device_id camera) = pre ++ [e] ->
  last_of (fetched h' w) = Some e ->
  (exists c, __init__ h camera device_info = Returned c /\
             _video_url c = Some "" /\ _last_video_id c = Some (id e)) /\
  fst (update h' w) = Returned tt /\
  adapter_state (self (snd (update h' w))) = adapter_state (self w).
Proof.
  intros Hd Hb Ht Hf E L.
  assert (G : _get_event_video_url (data e) = Returned (Some ""))
    by (rewrite Hd, (get_url_first_video before after it Hb Ht), Hf;
        reflexivity).
  split; [|split].
  - unfold __init__. rewrite E.
    assert (N : nonempty (pre ++ [e]) = true)
      by (apply nonempty_last_of; rewrite last_of_snoc; discriminate).
    rewrite N. unfold getitem_last. rewrite last_of_snoc. cbn.
    rewrite G. cbn. eexists. split; [reflexivity|]. cbn. auto.
  - destruct (refresh_trigger (set_utcnow (utcnow h') (self w)) (id e)) eqn:T.
    + rewrite (update_fired h' w e L T), G. reflexivity.
    + rewrite (update_idle h' w e L T). reflexivity.
  - apply (update_keeps_state_without_url h' w e L).
    intros u. rewrite G. intros [= <-]. reflexivity.
Qed.

Lemma empty_file_reference_init_adopts_update_rejects_witness :
  (exists c, __init__ (host 0 [event_A; event_D]) front_door no_config
             = Returned c /\
             _video_url c = Some "" /\ _last_video_id c = Some 104) /\
  fst (update (host 5 [event_A; event_D]) (fresh cam_A)) = Returned tt /\
  adapter_state (self (snd (update (host 5 [event_A; event_D]) (fresh cam_A))))
  = (Some 101, Some "https://cdn/a.mp4", minutes 45).
Proof.
  apply (empty_file_reference_init_adopts_update_rejects
           (host 0 [event_A; event_D]) front_door no_config
           (host 5 [event_A; event_D]) (fresh cam_A)
           [event_A] event_D
           [snapshot_item "https://cdn/d.jpg"] [] (video_item "")).
  - reflexivity.
  - cbn. intros x [<-|[]]. discriminate.
  - reflexivity.
  - reflexivity.
  - reflexivity.
  - reflexivity.
Defined.

(** ** More on [_get_event_video_url] *)

(** The scan ends in one of two ways: no item is tagged 2, or it stops at
    the first item tagged 2. *)
Lemma get_url_split (events_data : list data_item) :
  (forall it, In it events_data -> file_type it <> Some 2) \/
  exists before it after,
    events_data = before ++ it :: after /\
    (forall x, In x before -> file_type x <> Some 2) /\
    file_type it = Some 2.
Proof.
  induction events_data as [|x rest IH].
  - left. intros it [].
  - destruct (is_video x) eqn:Hx.
    + right. exists [], x, rest. split; [reflexivity|].
      split; [intros y [] | now apply is_video_true].
    + apply is_video_false in Hx. destruct IH as [No | (b & it & a & E & Hb & Ht)].
      * left. intros it [<-|Hin]; auto.
      * right. exists (x :: b), it, a. split; [rewrite E; reflexivity|].
        split; [|exact Ht]. intros y [<-|Hy]; auto.
Qed.

(** What the scan raises, and when. *)
Lemma get_url_raised (events_data : list data_item) (x : exn) :
  _get_event_video_url events_data = Raised x ->
  x = KeyError "file" /\
  exists before it after,
    events_data = before ++ it :: after /\
    (forall y, In y before -> file_type y <> Some 2) /\
    file_type it = Some 2 /\ file it = None.
Proof.
  intros R. destruct (get_url_split events_data)
    as [No | (b & it & a & E & Hb & Ht)].
  - rewrite (get_url_no_video _ No) in R. discriminate.
  - rewrite E, (get_url_first_video b a it Hb Ht) in R.
    destruct (file it) eqn:Hf; [discriminate|].
    injection R as <-. split; [reflexivity|].
    exists b, it, a. auto.
Qed.

(** X1. The scan returns the URL [u] exactly when the first data item
    tagged 2 carries [u] as its file reference: untagged items before it are
    passed over and no later item is ever used. *)
Theorem get_event_video_url_some_iff
  (events_data : list data_item) (u : string) :
  _get_event_video_url events_data = Returned (Some u) <->
  exists before it after,
    events_data = before ++ it :: after /\
    (forall y, In y before -> file_type y <> Some 2) /\
    file_type it = Some 2 /\ file it = Some u.
Proof.
  split.
  - intros R. destruct (get_url_split events_data)
      as [No | (b & it & a & E & Hb & Ht)].
    + rewrite (get_url_no_video _ No) in R. discriminate.
    + rewrite E, (get_url_first_video b a it Hb Ht) in R.
      destruct (file it) as [f|] eqn:Hf; [|discriminate].
      injection R as ->. exists b, it, a. auto.
  - intros (b & it & a & -> & Hb & Ht & Hf).
    rewrite (get_url_first_video b a it Hb Ht), Hf. reflexivity.
Qed.

Lemma get_event_video_url_some_iff_witness :
  _get_event_video_url (data event_A) = Returned (Some "https://cdn/a.mp4").
Proof.
  apply (proj2 (get_event_video_url_some_iff (data event_A)
                  "https://cdn/a.mp4")).
  exists [snapshot_item "https://cdn/a.jpg"], (video_item "https://cdn/a.mp4"),
         [video_item "https://cdn/a-2.mp4"].
  split; [reflexivity|]. split; [|split; reflexivity].
  intros y [<-|[]]. discriminate.
Defined.

(** X2. The scan raises exactly when the first item tagged 2 has no
    ["file"] key, and what it raises is [KeyError("file")]; a later item
    that carries a file does not help. *)
Theorem get_event_video_url_raises_iff
  (events_data : list data_item) (x : exn) :
  _get_event_video_url events_data = Raised x <->
  x = KeyError "file" /\
  exists before it after,
    events_data = before ++ it :: after /\
    (forall y, In y before -> file_type y <> Some 2) /\
    file_type it = Some 2 /\ file it = None.
Proof.
  split.
  - apply get_url_raised.
  - intros (-> & b & it & a & -> & Hb & Ht & Hf).
    rewrite (get_url_first_video b a it Hb Ht), Hf. reflexivity.
Qed.

Lemma get_event_video_url_raises_iff_witness :
  _get_event_video_url (data event_F) = Raised (KeyError "file").
Proof.
  apply (proj2 (get_event_video_url_raises_iff (data event_F)
                  (KeyError "file"))).
  split; [reflexivity|].
  exists [snapshot_item "https://cdn/f.jpg"], (mk_data_item (Some 2) None),
         [video_item "https://cdn/f.mp4"].
  split; [reflexivity|]. split; [|split; reflexivity].
  intros y [<-|[]]. discriminate.
Defined.

(** X3. Once some item is tagged 2 nothing after it is read: whatever is
    appended to the data leaves the result as it is. *)
Theorem get_event_video_url_ignores_rest
  (events_data more : list data_item) (it : data_item) :
  In it events_data -> file_type it = Some 2 ->
  _get_event_video_url (events_data ++ more)
  = _get_event_video_url events_data.
Proof.
  intros Hin Ht.
  destruct (get_url_split events_data) as [No | (b & v & a & E & Hb & Hv)].
  - now elim (No it Hin).
  - rewrite E, <- app_assoc. cbn [app].
    rewrite !(get_url_first_video b _ v Hb Hv). reflexivity.
Qed.

Lemma get_event_video_url_ignores_rest_witness :
  _get_event_video_url (data event_B ++ data event_A)
  = _get_event_video_url (data event_B).
Proof.
  apply (get_event_video_url_ignores_rest (data event_B) (data event_A)
           (video_item "https://cdn/b.mp4")).
  - right. left. reflexivity.
  - reflexivity.
Defined.

(** ** More on construction and refresh *)

(** X4. Construction never raises [IndexError]: [[-1]] is applied to the
    stored sequence behind the test of its length.  When it raises, it
    raises [KeyError("file")], and the first data item tagged 2 of the last
    event of the sequence has no ["file"] key. *)
Theorem init_raises_only_key_error
  (h : hass_env) (camera : device) (device_info : config) (x : exn) :
  __init__ h camera device_info = Raised x ->
  x = KeyError "file" /\
  exists pre e before it after,
    get_motion_events h (device_id camera) = pre ++ [e] /\
    data e = before ++ it :: after /\
    (forall y, In y before -> file_type y <> Some 2) /\
    file_type it = Some 2 /\ file it = None.
Proof.
  unfold __init__, getitem_last.
  set (events := get_motion_events h (device_id camera)).
  destruct (nonempty events) eqn:N; cbn; [|discriminate].
  destruct (last_of events) as [e|] eqn:L; cbn.
  - destruct (_get_event_video_url (data e)) as [u|y] eqn:G; cbn;
      [discriminate|].
    intros [= <-].
    destruct (get_url_raised (data e) y G) as (-> & b & it & a & Hrest).
    split; [reflexivity|].
    destruct (last_of_Some events e L) as [pre Hpre].
    exists pre, e, b, it, a. auto.
  - apply nonempty_last_of in N. now elim N.
Qed.

Lemma init_raises_only_key_error_witness :
  __init__ (host_by_device 0) back_yard no_config = Raised (KeyError "file") /\
  exists pre e before it after,
    get_motion_events (host_by_device 0) (device_id back_yard) = pre ++ [e] /\
    data e = before ++ it :: after /\
    (forall y, In y before -> file_type y <> Some 2) /\
    file_type it = Some 2 /\ file it = None.
Proof.
  split; [reflexivity|].
  apply (init_raises_only_key_error (host_by_device 0) back_yard no_config
           (KeyError "file")).
  reflexivity.
Defined.

(** X5. A refresh whose trigger holds and whose newest event has a first
    item tagged 2 without a ["file"] key raises [KeyError("file")]: the
    three attributes are kept, [_utcnow] is already overwritten and the call
    of the scan is on record.  When the trigger does not hold the item is
    never read and the refresh returns. *)
Theorem update_key_error
  (h : hass_env) (w : world) (e : motion_event)
  (before after : list data_item) (it : data_item) :
  last_of (fetched h w) = Some e ->
  data e = before ++ it :: after ->
  (forall x, In x before -> file_type x <> Some 2) ->
  file_type it = Some 2 ->
  file it = None ->
  (trigger_condition h w e ->
   update h w
   = (Raised (KeyError "file"),
      mk_world (set_utcnow (utcnow h) (self w))
               (log w ++ [GetEventVideoUrl (data e)]))) /\
  (~ trigger_condition h w e ->
   update h w = (Returned tt, mk_world (set_utcnow (utcnow h) (self w)) (log w))).
Proof.
  intros L Hd Hb Ht Hf. split; intros T.
  - apply refresh_trigger_true in T.
    rewrite (update_fired h w e L T), Hd,
      (get_url_first_video before after it Hb Ht), Hf.
    reflexivity.
  - apply refresh_trigger_false in T. exact (update_idle h w e L T).
Qed.

Lemma update_key_error_witness :
  let h := host 5 [event_A; event_F] in
  fst (update h (fresh cam_A)) = Raised (KeyError "file") /\
  adapter_state (self (snd (update h (fresh cam_A)))) = adapter_state cam_A /\
  _utcnow (self (snd (update h (fresh cam_A)))) = 5.
Proof.
  intros h.
  destruct (update_key_error h (fresh cam_A) event_F
              [snapshot_item "https://cdn/f.jpg"]
              [video_item "https://cdn/f.mp4"]
              (mk_data_item (Some 2) None)) as [Fires _].
  - reflexivity.
  - reflexivity.
  - intros x [<-|[]]. discriminate.
  - reflexivity.
  - reflexivity.
  - rewrite Fires; [repeat split | left; discriminate].
Defined.

(** X6. A refresh looks at the clock and at the newest event only: two
    hosts that agree on both, whatever older events their sequences hold,
    give the same result, the same entity and the same record. *)
Theorem update_depends_on_newest_event_only (h h' : hass_env) (w : world) :
  utcnow h = utcnow h' ->
  last_of (fetched h w) = last_of (fetched h' w) ->
  update h w = update h' w.
Proof.
  intros Clock Newest.
  destruct (last_of (fetched h w)) as [e|] eqn:L; symmetry in Newest.
  - destruct (refresh_trigger (set_utcnow (utcnow h) (self w)) (id e)) eqn:T.
    + rewrite (update_fired h w e L T).
      rewrite Clock in T. rewrite (update_fired h' w e Newest T).
      rewrite Clock. reflexivity.
    + rewrite (update_idle h w e L T).
      rewrite Clock in T. rewrite (update_idle h' w e Newest T).
      rewrite Clock. reflexivity.
  - rewrite (update_empty h w (last_of_None _ L)).
    rewrite (update_empty h' w (last_of_None _ Newest)).
    rewrite Clock. reflexivity.
Qed.

Lemma update_depends_on_newest_event_only_witness :
  update (host 5 [event_A; event_B]) (fresh cam_A)
  = update (host 5 [event_C; event_D; event_B]) (fresh cam_A).
Proof.
  apply (update_depends_on_newest_event_only
           (host 5 [event_A; event_B]) (host 5 [event_C; event_D; event_B])
           (fresh cam_A)).
  - reflexivity.
  - reflexivity.
Defined.

(** One refresh on a newest event that yields no non-empty URL: the entity
    is the old one with the new clock reading. *)
Lemma update_without_url_self (h : hass_env) (w : world) (e : motion_event) :
  last_of (fetched h w) = Some e ->
  (forall u, _get_event_video_url (data e) = Returned (Some u) -> u = "") ->
  self (snd (update h w)) = set_utcnow (utcnow h) (self w).
Proof.
  intros L G.
  destruct (update_self h w) as [H | (e' & u & L' & _ & G' & U & _)];
    [exact H|].
  exfalso. rewrite L in L'. injection L' as <-.
  apply truthy_Some in U. destruct U as (s & -> & Hs).
  apply Hs, G, G'.
Qed.

(** X7. While the newest event is one the entity has not adopted and its
    data yield no non-empty URL, every poll calls the scan on it again,
    whatever the clock, and the three attributes stay as they were: after
    [n] polls the scan has been called [n] times. *)
Theorem polls_retry_unadopted_event
  (hs : list hass_env) (w : world) (e : motion_event) :
  _last_video_id (self w) <> Some (id e) ->
  (forall u, _get_event_video_url (data e) = Returned (Some u) -> u = "") ->
  Forall (fun h => last_of (fetched h w) = Some e) hs ->
  log (polls hs w)
  = log w ++ repeat (GetEventVideoUrl (data e)) (List.length hs) /\
  adapter_state (self (polls hs w)) = adapter_state (self w).
Proof.
  intros New G Hs. revert w New Hs.
  induction hs as [|h hs IH]; intros w New Hs; cbn [polls List.length repeat].
  - rewrite app_nil_r. auto.
  - inversion Hs as [|? ? L Hs']; subst.
    assert (T : refresh_trigger (set_utcnow (utcnow h) (self w)) (id e) = true)
      by (apply refresh_trigger_true; left; exact New).
    pose proof (update_without_url_self h w e L G) as S.
    pose proof (update_keeps_state_without_url h w e L G) as K.
    unfold state_kept in K.
    assert (Lg : log (snd (update h w)) = log w ++ [GetEventVideoUrl (data e)]).
    { rewrite (update_fired h w e L T). cbn zeta.
      destruct (_get_event_video_url (data e)) as [u|x]; [|reflexivity].
      destruct (truthy u); reflexivity. }
    destruct (IH (snd (update h w))) as [IHl IHs].
    + rewrite S. exact New.
    + revert Hs'. apply Forall_impl. intros h'. unfold fetched.
      rewrite update_camera. auto.
    + rewrite IHl, IHs, Lg, K, <- app_assoc. auto.
Qed.

Lemma polls_retry_unadopted_event_witness :
  let hs := [host 5 [event_A; event_C]; host (minutes 50) [event_C];
             host 3 [event_B; event_C]] in
  log (polls hs (fresh cam_A))
  = [] ++ repeat (GetEventVideoUrl (data event_C)) 3 /\
  adapter_state (self (polls hs (fresh cam_A))) = adapter_state cam_A.
Proof.
  intros hs.
  apply (polls_retry_unadopted_event hs (fresh cam_A) event_C).
  - discriminate.
  - intros u. cbn. discriminate.
  - repeat constructor.
Defined.

(** ** What polls never touch *)

Lemma update_frame (h : hass_env) (w : world) :
  let c' := self (snd (update h w)) in
  _camera c' = _camera (self w) /\
  _motion_events c' = _motion_events (self w) /\
  _name c' = _name (self w) /\
  _ffmpeg_arguments c' = _ffmpeg_arguments (self w) /\
  _utcnow c' = utcnow h /\
  filter helper_operation (log (snd (update h w)))
  = filter helper_operation (log w).
Proof.
  cbn zeta.
  destruct (last_of (fetched h w)) as [e|] eqn:L.
  - destruct (refresh_trigger (set_utcnow (utcnow h) (self w)) (id e)) eqn:T.
    + rewrite (update_fired h w e L T). cbn zeta.
      assert (F : filter helper_operation
                    (log w ++ [GetEventVideoUrl (data e)])
                  = filter helper_operation (log w))
        by (rewrite filter_app; cbn; apply app_nil_r).
      destruct (_get_event_video_url (data e)) as [u|x];
        [destruct (truthy u)|]; cbn; rewrite F; repeat split.
    + rewrite (update_idle h w e L T). cbn. repeat split.
  - rewrite (update_empty h w (last_of_None _ L)). cbn. repeat split.
Qed.

(** X8. Polls change nothing but the adapter state and [_utcnow]: the
    device record, the name, the configured arguments and the sequence stored
    at construction stay (newer events are never stored), no operation of the
    transcoding helper is performed, and so [unique_id], [name] and every
    state attribute but ["video_url"] and ["last_video_id"] read the same
    before and after. *)
Theorem polls_frame (hs : list hass_env) (w : world)
  (ATTRIBUTION key : string) :
  let c' := self (polls hs w) in
  _camera c' = _camera (self w) /\
  _motion_events c' = _motion_events (self w) /\
  _ffmpeg_arguments c' = _ffmpeg_arguments (self w) /\
  Entity.name c' = Entity.name (self w) /\
  Entity.unique_id c' = Entity.unique_id (self w) /\
  filter helper_operation (log (polls hs w))
  = filter helper_operation (log w) /\
  (key <> "video_url" -> key <> "last_video_id" ->
   attribute_of key (device_state_attributes ATTRIBUTION c')
   = attribute_of key (device_state_attributes ATTRIBUTION (self w))).
Proof.
  cbn zeta.
  assert (Frame : _camera (self (polls hs w)) = _camera (self w) /\
                  _motion_events (self (polls hs w)) = _motion_events (self w) /\
                  _ffmpeg_arguments (self (polls hs w))
                  = _ffmpeg_arguments (self w) /\
                  _name (self (polls hs w)) = _name (self w) /\
                  filter helper_operation (log (polls hs w))
                  = filter helper_operation (log w)).
  { revert w. induction hs as [|h hs IH]; intros w; cbn [polls].
    - repeat split.
    - destruct (IH (snd (update h w))) as (C & E & A & N & F).
      destruct (update_frame h w) as (C' & E' & N' & A' & _ & F').
      rewrite C, E, A, N, F. auto. }
  destruct Frame as (C & E & A & N & F).
  unfold Entity.name, Entity.unique_id.
  rewrite C, E, A, N, F. repeat split.
  intros K1 K2. unfold device_state_attributes. rewrite C.
  cbn [attribute_of].
  apply String.eqb_neq in K1, K2. rewrite String.eqb_sym in K1, K2.
  rewrite K1, K2. reflexivity.
Qed.

(** ** More invariants of the entities the host can hold *)

Lemma init_id_from_observed
  (h : hass_env) (camera : device) (device_info : config)
  (c : KodakSmartHomeCam) (i : Z) :
  __init__ h camera device_info = Returned c ->
  _last_video_id c = Some i ->
  exists e, In e (get_motion_events h (device_id camera)) /\ id e = i.
Proof.
  unfold __init__, getitem_last.
  set (events := get_motion_events h (device_id camera)).
  destruct (nonempty events); cbn.
  - destruct (last_of events) as [e|] eqn:L; cbn; [|discriminate].
    destruct (_get_event_video_url (data e)) as [url|x] eqn:G; cbn;
      [|discriminate].
    intros [= <-]. cbn. intros [= <-].
    exists e. split; [exact (last_of_In _ _ L) | reflexivity].
  - intros [= <-]. cbn. discriminate.
Qed.

(** X9. For every entity the host can hold, a [last_video_id] that is
    present is the id of an event the entity fetched, at construction or in
    one of its refreshes. *)
Theorem last_video_id_from_observed_event
  (observed : list motion_event) (c : KodakSmartHomeCam) (i : Z) :
  reachable observed c ->
  _last_video_id c = Some i ->
  exists e, In e observed /\ id e = i.
Proof.
  intros R. revert i.
  induction R as [h camera device_info c Hinit | h w observed _ IH]; intros i.
  - exact (init_id_from_observed h camera device_info c i Hinit).
  - destruct (update_self h w) as [H | (e & url & L & _ & _ & _ & H)];
      rewrite H; cbn.
    + intros Hi. destruct (IH i Hi) as (e & He & Hid).
      exists e. split; [apply in_or_app; now left | exact Hid].
    + intros [= <-]. exists e. split; [|reflexivity].
      apply in_or_app. right. exact (last_of_In _ _ L).
Qed.

Lemma last_video_id_from_observed_event_witness :
  let c := self (snd (update (host 5 [event_A; event_B]) (fresh cam_A))) in
  _last_video_id c = Some 102 /\
  exists e, In e ([event_A] ++ [event_A; event_B]) /\ id e = 102.
Proof.
  intros c. split; [reflexivity|].
  apply (last_video_id_from_observed_event
           ([event_A] ++ fetched (host 5 [event_A; event_B]) (fresh cam_A)) c).
  - apply (reach_update (host 5 [event_A; event_B]) (fresh cam_A) [event_A]).
    apply (reach_init (host 0 [event_A]) front_door no_config cam_A).
    reflexivity.
  - reflexivity.
Defined.

(** X10. Polls never withdraw what is published: a [video_url] and a
    [last_video_id] that are present stay present, whatever the later
    sequences hold (the old URL stays when the newest event has none). *)
Theorem polls_never_withdraw (hs : list hass_env) (w : world) :
  (_video_url (self w) <> None -> _video_url (self (polls hs w)) <> None) /\
  (_last_video_id (self w) <> None ->
   _last_video_id (self (polls hs w)) <> None).
Proof.
  revert w. induction hs as [|h hs IH]; intros w; cbn [polls]; [auto|].
  destruct (IH (snd (update h w))) as [IHu IHi].
  destruct (update_self h w) as [H | (e & u & _ & _ & _ & U & H)].
  - rewrite H in IHu, IHi. cbn in IHu, IHi. auto.
  - rewrite H in IHu, IHi. cbn in IHu, IHi.
    apply truthy_Some in U. destruct U as (s & -> & _).
    split; intros _; [apply IHu | apply IHi]; discriminate.
Qed.

Lemma polls_never_withdraw_witness :
  let hs := [host 5 [event_A; event_C]; host (minutes 50) []] in
  _video_url (self (polls hs (fresh cam_A))) <> None /\
  _last_video_id (self (polls hs (fresh cam_A))) <> None.
Proof.
  intros hs.
  destruct (polls_never_withdraw hs (fresh cam_A)) as [U I].
  split; [apply U | apply I]; discriminate.
Defined.

Lemma init_utcnow (h : hass_env) (camera : device) (device_info : config)
  (c : KodakSmartHomeCam) :
  __init__ h camera device_info = Returned c -> _utcnow c = utcnow h.
Proof.
  unfold __init__.
  destruct (if nonempty _ then _ else _) as [i|x]; cbn; [|discriminate].
  destruct (match i with Some _ => _ | None => _ end) as [u|x]; cbn;
    [|discriminate].
  intros [= <-]. reflexivity.
Qed.

(** X11. After construction and any refreshes, [_utcnow] is the time of the
    last call and [expires_at] is the time of one of the calls so far (the
    construction or a refresh) plus 45 minutes; so when no call so far was
    later than the last one, the deadline is at most 45 minutes ahead of
    it. *)
Theorem expiry_is_window_after_a_call
  (times : list datetime) (c : KodakSmartHomeCam) :
  called_at times c ->
  (exists earlier, times = _utcnow c :: earlier) /\
  (exists t0, In t0 times /\ _expires_at c = t0 + minutes 45) /\
  ((forall t, In t times -> t <= _utcnow c) ->
   _expires_at c <= _utcnow c + minutes 45).
Proof.
  intros R.
  assert (Core : (exists earlier, times = _utcnow c :: earlier) /\
                 (exists t0, In t0 times /\ _expires_at c = t0 + minutes 45)).
  { induction R as [h camera device_info c Hinit | h w times _ IH].
    - rewrite (init_utcnow h camera device_info c Hinit).
      split; [exists []; reflexivity|].
      exists (utcnow h). split; [now left|].
      rewrite (init_expiry h camera device_info c Hinit),
        FORCE_REFRESH_INTERVAL_minutes. lia.
    - destruct IH as (_ & t0 & Ht0 & E).
      destruct (update_self h w) as [H | (e & u & _ & _ & _ & _ & H)];
        rewrite H; cbn.
      + split; [exists times; reflexivity|].
        exists t0. split; [now right | exact E].
      + split; [exists times; reflexivity|].
        exists (utcnow h). split; [now left|].
        rewrite FORCE_REFRESH_INTERVAL_minutes. lia. }
  destruct Core as [Last (t0 & Ht0 & E)].
  split; [exact Last|]. split; [exists t0; auto|].
  intros Latest. specialize (Latest t0 Ht0). lia.
Qed.

Lemma expiry_is_window_after_a_call_witness :
  let c := self (snd (update (host 5 [event_A; event_C]) (fresh cam_A))) in
  _utcnow c = 5 /\ _expires_at c = 0 + minutes 45 /\
  exists t0, In t0 [5; 0] /\ _expires_at c = t0 + minutes 45.
Proof.
  intros c. split; [reflexivity|]. split; [reflexivity|].
  apply (expiry_is_window_after_a_call [5; 0] c).
  apply (called_update (host 5 [event_A; event_C]) (fresh cam_A) [0]).
  apply (called_init (host 0 [event_A]) front_door no_config cam_A).
  reflexivity.
Defined.

(** ** More on the still image and the stream *)

(** X12. With a [video_url] present the stream proxy's result is decided
    in this order: an exception of [open_camera] reaches the caller and
    nothing is closed; otherwise an exception of [close] replaces whatever
    the body gave, also a finished copy; otherwise the caller gets the
    exception of [get_reader], else that of the copy, else the response. *)
Theorem stream_result
  (h : hass_env) (w : world) (request : web_request) (u : string) :
  _video_url (self w) = Some u ->
  let run := handle_async_mjpeg_stream request h w in
  fst run =
  match open_camera_ends h u (_ffmpeg_arguments (self w)) with
  | Raised x => Raised x
  | Returned _ =>
      match close_ends h with
      | Raised x => Raised x
      | Returned _ =>
          match get_reader_ends h with
          | Raised x => Raised x
          | Returned reader =>
              match proxy_stream_ends h request reader
                                      (ffmpeg_stream_content_type h) with
              | Raised x => Raised x
              | Returned response => Returned (Some response)
              end
          end
      end
  end /\
  (In Close (log (snd run)) <->
   In Close (log w) \/
   exists v, open_camera_ends h u (_ffmpeg_arguments (self w)) = Returned v).
Proof.
  intros U. cbn zeta.
  destruct (open_camera_ends h u (_ffmpeg_arguments (self w))) as [[]|x] eqn:O.
  - rewrite (stream_after_open h w request u U O). cbn zeta.
    split.
    + destruct (get_reader_ends h) as [reader|x].
      * destruct (proxy_stream_ends h request reader _) as [response|x];
          destruct (close_ends h) as [[]|x']; reflexivity.
      * destruct (close_ends h) as [[]|x']; reflexivity.
    + split; [intros _; right; exists tt; reflexivity|]. intros _.
      destruct (get_reader_ends h) as [reader|x].
      * destruct (proxy_stream_ends h request reader _) as [response|x];
          destruct (close_ends h) as [[]|x']; cbn [snd log];
          apply in_or_app; right; cbn; auto.
      * destruct (close_ends h) as [[]|x']; cbn [snd log];
          apply in_or_app; right; cbn; auto.
  - assert (R : handle_async_mjpeg_stream request h w
                = (Raised x,
                   mk_world (self w)
                     (log w ++ [CameraMjpegNew (ffmpeg_binary h);
                                OpenCamera u (_ffmpeg_arguments (self w))]))).
    { cbv [handle_async_mjpeg_stream bind get_self hass record await lift].
      cbn [self log]. rewrite U, O. flat_log. }
    rewrite R. cbn [fst snd log]. split; [reflexivity|].
    split.
    + intros Hin. apply in_app_or in Hin.
      destruct Hin as [Hin|[F|[F|[]]]]; [now left | discriminate..].
    + intros [Hin|[v F]]; [apply in_or_app; now left | discriminate].
Qed.

Lemma stream_result_witness :
  fst (handle_async_mjpeg_stream (WebRequest 1) (host_close_fails 5)
                                 (fresh cam_A))
  = Raised (HelperError "cannot close") /\
  fst (handle_async_mjpeg_stream (WebRequest 1) (host_open_fails 5)
                                 (fresh cam_A))
  = Raised (HelperError "cannot open") /\
  ~ In Close (log (snd (handle_async_mjpeg_stream
                          (WebRequest 1) (host_open_fails 5) (fresh cam_A)))).
Proof.
  destruct (stream_result (host_close_fails 5) (fresh cam_A) (WebRequest 1)
              "https://cdn/a.mp4" eq_refl) as [Masked _].
  destruct (stream_result (host_open_fails 5) (fresh cam_A) (WebRequest 1)
              "https://cdn/a.mp4" eq_refl) as [Failed Closed].
  split; [exact Masked|]. split; [exact Failed|].
  intros Hin. apply Closed in Hin.
  destruct Hin as [[]|[v F]]. discriminate.
Defined.

(** X13. With a [video_url] present the still-image fetch asks the helper
    for one frame of exactly that URL with the configured extra arguments,
    after building its wrapper; it returns the bytes, or lets the helper's
    exception through uncaught. *)
Theorem camera_image_with_url (h : hass_env) (w : world) (u : string) :
  _video_url (self w) = Some u ->
  async_camera_image h w
  = (match get_image_ends h u (_ffmpeg_arguments (self w)) with
     | Returned image => Returned (Some image)
     | Raised x => Raised x
     end,
     mk_world (self w)
              (log w ++ [ImageFrameNew (ffmpeg_binary h);
                         GetImage u (_ffmpeg_arguments (self w))])).
Proof.
  intros U.
  cbv [async_camera_image bind hass record get_self await lift ret].
  cbn [self log]. rewrite U.
  destruct (get_image_ends h u (_ffmpeg_arguments (self w))); flat_log.
Qed.

Lemma camera_image_with_url_witness :
  async_camera_image (host_open_fails 5) (fresh cam_A)
  = (Raised (HelperError "no frame"),
     mk_world cam_A [ImageFrameNew "ffmpeg";
                     GetImage "https://cdn/a.mp4" None]).
Proof.
  apply (camera_image_with_url (host_open_fails 5) (fresh cam_A)
           "https://cdn/a.mp4").
  reflexivity.
Defined.

(** X14. Neither the still-image fetch nor the stream proxy changes the
    entity, however the helper's operations end, and neither erases what is
    on record. *)
Theorem image_and_stream_keep_entity
  (h : hass_env) (w : world) (request : web_request) :
  self (snd (async_camera_image h w)) = self w /\
  self (snd (handle_async_mjpeg_stream request h w)) = self w /\
  (exists done, log (snd (async_camera_image h w)) = log w ++ done) /\
  (exists done,
     log (snd (handle_async_mjpeg_stream request h w)) = log w ++ done).
Proof.
  destruct (_video_url (self w)) as [u|] eqn:U.
  - assert (I : exists r,
               async_camera_image h w
               = (r, mk_world (self w)
                       (log w ++ [ImageFrameNew (ffmpeg_binary h);
                                  GetImage u (_ffmpeg_arguments (self w))]))).
    { cbv [async_camera_image bind hass record get_self await lift ret].
      cbn [self log]. rewrite U.
      destruct (get_image_ends h u (_ffmpeg_arguments (self w)));
        eexists; flat_log. }
    destruct I as [r I]. rewrite I. cbn [snd self log].
    split; [reflexivity|].
    destruct (open_camera_ends h u (_ffmpeg_arguments (self w)))
      as [[]|x] eqn:O.
    + rewrite (stream_after_open h w request u U O). cbn zeta.
      destruct (get_reader_ends h) as [reader|x].
      * destruct (proxy_stream_ends h request reader _) as [response|x];
          destruct (close_ends h) as [[]|x']; cbn [snd self log];
          (split; [reflexivity|]); (split; eexists; [reflexivity|]);
          rewrite <- app_assoc; reflexivity.
      * destruct (close_ends h) as [[]|x']; cbn [snd self log];
          (split; [reflexivity|]); (split; eexists; [reflexivity|]);
          rewrite <- app_assoc; reflexivity.
    + assert (R : handle_async_mjpeg_stream request h w
                  = (Raised x,
                     mk_world (self w)
                       (log w ++ [CameraMjpegNew (ffmpeg_binary h);
                                  OpenCamera u (_ffmpeg_arguments (self w))]))).
      { cbv [handle_async_mjpeg_stream bind get_self hass record await lift].
        cbn [self log]. rewrite U, O. flat_log. }
      rewrite R. cbn [snd self log].
      split; [reflexivity|]. split; eexists; reflexivity.
  - assert (I : async_camera_image h w
                = (Returned None,
                   mk_world (self w)
                            (log w ++ [ImageFrameNew (ffmpeg_binary h)]))).
    { cbv [async_camera_image bind hass record get_self]. cbn [self].
      rewrite U. reflexivity. }
    assert (S : handle_async_mjpeg_stream request h w = (Returned None, w)).
    { cbv [handle_async_mjpeg_stream bind get_self]. rewrite U. reflexivity. }
    rewrite I, S. cbn [snd self log].
    split; [reflexivity|]. split; [reflexivity|].
    split; [eexists; reflexivity|]. exists []. symmetry. apply app_nil_r.
Qed.

(** ** [setup_platform] *)

Lemma init_camera (h : hass_env) (camera : device) (device_info : config)
  (c : KodakSmartHomeCam) :
  __init__ h camera device_info = Returned c -> _camera c = camera.
Proof.
  unfold __init__.
  destruct (if nonempty _ then _ else _) as [i|x]; cbn; [|discriminate].
  destruct (match i with Some _ => _ | None => _ end) as [u|x]; cbn;
    [|discriminate].
  intros [= <-]. reflexivity.
Qed.

(** The loop when every online device can be constructed: the entities in
    the order of the devices, and the offline devices in their order. *)
Lemma scan_devices_returns (h : hass_env) (cfg : config)
  (devices : list device) (built : list KodakSmartHomeCam) :
  Forall2 (fun camera c => __init__ h camera cfg = Returned c)
          (filter is_online devices) built ->
  forall cams cam_offline,
    scan_devices h cfg devices cams cam_offline
    = Returned (cams ++ built,
                cam_offline ++ filter (fun d => negb (is_online d)) devices).
Proof.
  revert built. induction devices as [|camera rest IH]; intros built B cams off.
  - cbn in B. inversion B. cbn. rewrite !app_nil_r. reflexivity.
  - cbn [scan_devices filter] in *. destruct (is_online camera); cbn [negb].
    + inversion B as [|? c ? built' Hc B']; subst.
      rewrite Hc. cbn [obind]. rewrite (IH built' B').
      rewrite <- app_assoc. reflexivity.
    + rewrite (IH built B). rewrite <- app_assoc. reflexivity.
Qed.

(** The loop when the constructor raises for an online device: the
    exception ends it, whatever was collected so far. *)
Lemma scan_devices_raises (h : hass_env) (cfg : config)
  (done rest : list device) (camera : device)
  (built : list KodakSmartHomeCam) (x : exn) :
  Forall2 (fun camera c => __init__ h camera cfg = Returned c)
          (filter is_online done) built ->
  is_online camera = true ->
  __init__ h camera cfg = Raised x ->
  forall cams cam_offline,
    scan_devices h cfg (done ++ camera :: rest) cams cam_offline = Raised x.
Proof.
  intros B On R. revert built B.
  induction done as [|d done' IH]; intros built B cams off.
  - cbn. rewrite On, R. reflexivity.
  - cbn [app scan_devices filter] in *. destruct (is_online d).
    + inversion B as [|? c ? built' Hc B']; subst.
      rewrite Hc. cbn [obind]. apply (IH built' B').
    + apply (IH built B).
Qed.

(** X15. When every online device can be constructed, [setup_platform]
    returns [True] and ends with one [add_entities(cams, True)] whose
    entities are those of the online devices, one each and in the order of
    the devices: an offline device is never constructed. *)
Theorem setup_platform_adds_online_devices
  (NOTIFICATION_ID : string) (devices : list device)
  (h : hass_env) (cfg : config) (built : list KodakSmartHomeCam) :
  Forall2 (fun camera c => __init__ h camera cfg = Returned c)
          (filter is_online devices) built ->
  exists notified,
    setup_platform NOTIFICATION_ID devices h cfg
    = (Returned true, notified ++ [AddEntities built true]) /\
    (forall a, In a notified ->
               exists m t i, a = PersistentNotificationCreate m t i) /\
    map _camera built = filter is_online devices /\
    Forall (fun c => is_online (_camera c) = true) built.
Proof.
  intros B. unfold setup_platform.
  rewrite (scan_devices_returns h cfg devices built B [] []). cbn [app].
  assert (C : map _camera built = filter is_online devices).
  { clear - B. induction B as [|camera c l l' Hc _ IH]; [reflexivity|].
    cbn. rewrite IH, (init_camera _ _ _ _ Hc). reflexivity. }
  eexists. split; [reflexivity|]. split; [|split; [exact C|]].
  - intros a Hin.
    destruct (filter (fun d => negb (is_online d)) devices); [destruct Hin|].
    destruct Hin as [<-|[]]. eauto.
  - apply Forall_forall. intros c Hin.
    apply (in_map _camera) in Hin. rewrite C in Hin.
    apply filter_In in Hin. apply Hin.
Qed.

Lemma setup_platform_adds_online_devices_witness :
  exists notified,
    setup_platform "kodak" [garage; front_door; shed] (host 0 [event_A])
                   no_config
    = (Returned true, notified ++ [AddEntities [cam_A] true]) /\
    (forall a, In a notified ->
               exists m t i, a = PersistentNotificationCreate m t i) /\
    map _camera [cam_A] = filter is_online [garage; front_door; shed] /\
    Forall (fun c => is_online (_camera c) = true) [cam_A].
Proof.
  apply (setup_platform_adds_online_devices "kodak" [garage; front_door; shed]
           (host 0 [event_A]) no_config [cam_A]).
  repeat constructor.
Defined.

(** Strings: [append] is associative, and an element of a joined list
    occurs in the result. *)
Lemma string_app_assoc (a b c : string) :
  ((a ++ b) ++ c = a ++ (b ++ c))%string.
Proof. induction a as [|ch a IH]; cbn; [reflexivity | now rewrite IH]. Qed.

Lemma string_app_nil_r (a : string) : (a ++ "" = a)%string.
Proof. induction a as [|ch a IH]; cbn; [reflexivity | now rewrite IH]. Qed.

Lemma occurs_in_app_l (s t p : string) :
  occurs_in s t -> occurs_in s (p ++ t)%string.
Proof.
  intros (a & b & ->). exists (p ++ a)%string, b.
  now rewrite string_app_assoc.
Qed.

Lemma occurs_in_app_r (s t q : string) :
  occurs_in s t -> occurs_in s (t ++ q)%string.
Proof.
  intros (a & b & ->). exists a, (b ++ q)%string.
  now rewrite !string_app_assoc.
Qed.

Lemma occurs_in_concat (sep x : string) (l : list string) :
  In x l -> occurs_in x (String.concat sep l).
Proof.
  induction l as [|y rest IH]; [intros []|].
  intros [->|Hin].
  - destruct rest as [|z rest'].
    + exists ""%string, ""%string. cbn. now rewrite string_app_nil_r.
    + exists ""%string, (sep ++ String.concat sep (z :: rest'))%string.
      reflexivity.
  - destruct rest as [|z rest']; [destruct Hin|].
    change (String.concat sep (y :: z :: rest'))
      with (y ++ sep ++ String.concat sep (z :: rest'))%string.
    apply occurs_in_app_l, occurs_in_app_l, IH, Hin.
Qed.

(** X16. When every online device can be constructed, [setup_platform]
    creates no notification if no device is offline, and otherwise exactly
    one, before [add_entities], under the fixed title and the given id, whose
    text holds the name of every offline device. *)
Theorem setup_platform_notifies_offline_once
  (NOTIFICATION_ID : string) (devices : list device)
  (h : hass_env) (cfg : config) (built : list KodakSmartHomeCam) :
  Forall2 (fun camera c => __init__ h camera cfg = Returned c)
          (filter is_online devices) built ->
  ((forall d, In d devices -> is_online d = true) ->
   snd (setup_platform NOTIFICATION_ID devices h cfg)
   = [AddEntities built true]) /\
  ((exists d, In d devices /\ is_online d = false) ->
   exists message,
     snd (setup_platform NOTIFICATION_ID devices h cfg)
     = [PersistentNotificationCreate message NOTIFICATION_TITLE
                                     NOTIFICATION_ID;
        AddEntities built true] /\
     forall d, In d devices -> is_online d = false ->
               occurs_in (name d) message).
Proof.
  intros B. unfold setup_platform.
  rewrite (scan_devices_returns h cfg devices built B [] []). cbn [app].
  set (offline := filter (fun d => negb (is_online d)) devices).
  assert (Off : forall d, In d offline <-> In d devices /\ is_online d = false).
  { intros d. unfold offline. rewrite filter_In, negb_true_iff. reflexivity. }
  split.
  - intros All. destruct offline as [|d rest]; [reflexivity|].
    assert (Hd : In d devices /\ is_online d = false)
      by (apply Off; now left).
    destruct Hd as [Hin Hoff]. rewrite (All d Hin) in Hoff. discriminate.
  - intros (d & Hin & Hoff).
    assert (Hd : In d offline) by (apply Off; auto).
    destruct offline as [|d0 rest] eqn:E; [destruct Hd|].
    exists (offline_message (d0 :: rest)). split; [reflexivity|].
    intros d' Hin' Hoff'. unfold offline_message.
    apply occurs_in_app_l, occurs_in_app_r, occurs_in_app_l, occurs_in_app_r.
    apply occurs_in_concat, in_map, Off. auto.
Qed.

Lemma setup_platform_notifies_offline_once_witness :
  exists message,
    snd (setup_platform "kodak" [garage; front_door; shed] (host 0 [event_A])
                        no_config)
    = [PersistentNotificationCreate message NOTIFICATION_TITLE "kodak";
       AddEntities [cam_A] true] /\
    occurs_in "Garage" message /\ occurs_in "Shed" message.
Proof.
  destruct (setup_platform_notifies_offline_once
              "kodak" [garage; front_door; shed] (host 0 [event_A])
              no_config [cam_A]) as [_ Some_offline].
  - repeat constructor.
  - destruct Some_offline as (message & Hactions & Hnames).
    + exists garage. split; [now left | reflexivity].
    + exists message. split; [exact Hactions|].
      split; [apply (Hnames garage) | apply (Hnames shed)];
        cbn; auto.
Defined.

(** X17. When the constructor raises for an online device, after the
    devices before it were scanned without an exception, [setup_platform]
    raises the same exception: no entity is added, also not those already
    constructed, and no notification is created for the offline devices. *)
Theorem setup_platform_constructor_failure
  (NOTIFICATION_ID : string) (done rest : list device) (camera : device)
  (h : hass_env) (cfg : config) (built : list KodakSmartHomeCam) (x : exn) :
  Forall2 (fun camera c => __init__ h camera cfg = Returned c)
          (filter is_online done) built ->
  is_online camera = true ->
  __init__ h camera cfg = Raised x ->
  setup_platform NOTIFICATION_ID (done ++ camera :: rest) h cfg
  = (Raised x, []).
Proof.
  intros B On R. unfold setup_platform.
  rewrite (scan_devices_raises h cfg done rest camera built x B On R [] []).
  reflexivity.
Qed.

Lemma setup_platform_constructor_failure_witness :
  setup_platform "kodak" ([garage; front_door] ++ back_yard :: [shed])
                 (host_by_device 0) no_config
  = (Raised (KeyError "file"), []).
Proof.
  apply (setup_platform_constructor_failure "kodak" [garage; front_door]
           [shed] back_yard (host_by_device 0) no_config [cam_A]).
  - repeat constructor.
  - reflexivity.
  - reflexivity.
Defined.
